(** * Verification of the decision agent of Video_Chatllm

    Shallow embedding of [src/core/decision_agent.py] (class
    [DecisionAgent]) and of the fragment of the Python runtime it calls
    ([str] methods, the [re] module on the patterns that occur in the
    file, [dict] literals), followed by the theorems about it. *)

From Stdlib Require Import ZArith NArith List Bool Ascii String Lia.
From Stdlib Require Import DecimalString PrimFloat.
From stdpp Require Import gmap strings list fin_maps.

Set Default Proof Using "Type".
Set Warnings "-inexact-float".
Local Open Scope N_scope.

(** ** Python strings

    A Python [str] is a sequence of Unicode code points; [len], slicing,
    [in] and the [re] module all work on code points, so a string is a
    list of code points.  Literals are written as Rocq strings (UTF-8
    bytes) and decoded by [u]. *)

Module Py.

Definition str := list N.

Fixpoint utf8_decode (bs : list N) : str :=
  match bs with
  | [] => []
  | b0 :: r0 =>
    if b0 <? 0x80 then b0 :: utf8_decode r0
    else if b0 <? 0xE0 then
      match r0 with
      | b1 :: r1 => ((b0 mod 0x20) * 0x40 + b1 mod 0x40) :: utf8_decode r1
      | _ => []
      end
    else if b0 <? 0xF0 then
      match r0 with
      | b1 :: b2 :: r2 =>
        ((b0 mod 0x10) * 0x1000 + (b1 mod 0x40) * 0x40 + b2 mod 0x40)
          :: utf8_decode r2
      | _ => []
      end
    else
      match r0 with
      | b1 :: b2 :: b3 :: r3 =>
        ((b0 mod 0x08) * 0x40000 + (b1 mod 0x40) * 0x1000
         + (b2 mod 0x40) * 0x40 + b3 mod 0x40) :: utf8_decode r3
      | _ => []
      end
  end.

(** [u "..."] is the Python string written between the quotes. *)
Definition u (s : string) : str :=
  utf8_decode (map N_of_ascii (list_ascii_of_string s)).

Definition str_eqb (a b : str) : bool := bool_decide (a = b).

(** [str.isspace] on one character, which is also what [\s] matches and
    what [str.strip()] and [str.split()] remove (CPython's
    [_PyUnicode_IsWhitespace]). *)
Definition isspace (c : N) : bool :=
  ((0x09 <=? c) && (c <=? 0x0D)) || ((0x1C <=? c) && (c <=? 0x20))
  || (c =? 0x85) || (c =? 0xA0) || (c =? 0x1680)
  || ((0x2000 <=? c) && (c <=? 0x200A))
  || (c =? 0x2028) || (c =? 0x2029) || (c =? 0x202F) || (c =? 0x205F)
  || (c =? 0x3000).

(** The code points of the digit zero of every Unicode decimal-digit
    block (general category Nd, Unicode 14); each block is ten consecutive
    code points with values 0..9.  [\d] and [int()] use this table. *)
Definition decimal_zeros : list N :=
  [0x30; 0x660; 0x6F0; 0x7C0; 0x966; 0x9E6; 0xA66; 0xAE6; 0xB66; 0xBE6;
   0xC66; 0xCE6; 0xD66; 0xDE6; 0xE50; 0xED0; 0xF20; 0x1040; 0x1090; 0x17E0;
   0x1810; 0x1946; 0x19D0; 0x1A80; 0x1A90; 0x1B50; 0x1BB0; 0x1C40; 0x1C50;
   0xA620; 0xA8D0; 0xA900; 0xA9D0; 0xA9F0; 0xAA50; 0xABF0; 0xFF10; 0x104A0;
   0x10D30; 0x11066; 0x110F0; 0x11136; 0x111D0; 0x112F0; 0x11450; 0x114D0;
   0x11650; 0x116C0; 0x11730; 0x118E0; 0x11950; 0x11C50; 0x11D50; 0x11DA0;
   0x16A60; 0x16AC0; 0x16B50; 0x1D7CE; 0x1D7D8; 0x1D7E2; 0x1D7EC; 0x1D7F6;
   0x1E140; 0x1E2F0; 0x1E950; 0x1FBF0].

Definition in_block (c z : N) : bool := (z <=? c) && (c <? z + 10).

Definition isdecimal (c : N) : bool := existsb (in_block c) decimal_zeros.

Definition digit_value (c : N) : N :=
  match find (in_block c) decimal_zeros with
  | Some z => c - z
  | None => 0
  end.

(** [int(s)] for a string of decimal digits (the strings the patterns
    capture with [\d+]). *)
Definition int_of_digits (s : str) : Z :=
  Z.of_N (fold_left (fun acc c => acc * 10 + digit_value c) s 0).

(** [str(n)] / [f"{n}"] for an integer. *)
Definition str_of_int (z : Z) : str :=
  map N_of_ascii (list_ascii_of_string (NilEmpty.string_of_int (Z.to_int z))).

(** [s.startswith(p)] *)
Fixpoint startswith (s p : str) : bool :=
  match p, s with
  | [], _ => true
  | _ :: _, [] => false
  | a :: p', b :: s' => (a =? b) && startswith s' p'
  end.

(** [sub in s] *)
Fixpoint contains (s sub : str) : bool :=
  startswith s sub ||
  match s with
  | [] => false
  | _ :: s' => contains s' sub
  end.

(** [any(kw in s for kw in kws)] *)
Definition any_in (kws : list str) (s : str) : bool :=
  existsb (contains s) kws.

(** [s.replace(old, new)]: occurrences are found left to right and do not
    overlap.  [skip] counts the characters of an occurrence that was just
    replaced and that are still to be passed over.  With an empty [old],
    Python puts [new] before every character and at the end. *)
Fixpoint replace_from (old new : str) (skip : nat) (s : str) : str :=
  match s with
  | [] => []
  | c :: s' =>
    match skip with
    | S k => replace_from old new k s'
    | O =>
      if startswith s old
      then new ++ replace_from old new (length old - 1) s'
      else c :: replace_from old new 0 s'
    end
  end.

Definition replace (s old new : str) : str :=
  match old with
  | [] => new ++ flat_map (fun c => c :: new) s
  | _ :: _ => replace_from old new 0 s
  end.

(** [s.lstrip()], [s.rstrip()], [s.strip()] *)
Fixpoint lstrip (s : str) : str :=
  match s with
  | c :: s' => if isspace c then lstrip s' else s
  | [] => []
  end.

Definition rstrip (s : str) : str := rev (lstrip (rev s)).

Definition strip (s : str) : str := rstrip (lstrip s).

(** [s.split(sep)] for a one-character separator: empty pieces are kept.
    [cur] is the piece being read, reversed. *)
Fixpoint split_char_from (sep : N) (cur : str) (s : str) : list str :=
  match s with
  | [] => [rev cur]
  | c :: s' =>
    if c =? sep then rev cur :: split_char_from sep [] s'
    else split_char_from sep (c :: cur) s'
  end.

Definition split_char (sep : N) (s : str) : list str :=
  split_char_from sep [] s.

(** [s.split()]: split on runs of whitespace, no empty pieces. *)
Fixpoint split_ws_from (cur : str) (s : str) : list str :=
  match s with
  | [] => match cur with [] => [] | _ => [rev cur] end
  | c :: s' =>
    if isspace c
    then match cur with
         | [] => split_ws_from [] s'
         | _ => rev cur :: split_ws_from [] s'
         end
    else split_ws_from (c :: cur) s'
  end.

Definition split_ws (s : str) : list str := split_ws_from [] s.

(** [sep.join(parts)] *)
Fixpoint join (sep : str) (parts : list str) : str :=
  match parts with
  | [] => []
  | [p] => p
  | p :: rest => p ++ sep ++ join sep rest
  end.

(** What the code can raise. *)
Inductive exn := IndexError | TypeError | ValueError.

(** A computation that returns or raises. *)
Inductive result (A : Type) :=
| Ok (a : A)
| Raise (e : exn).
Arguments Ok {A} a.
Arguments Raise {A} e.

Definition bind {A B} (m : result A) (f : A -> result B) : result B :=
  match m with
  | Ok a => f a
  | Raise e => Raise e
  end.

End Py.

Import Py.

Notation "x <- m ;; k" := (bind m (fun x => k))
  (at level 100, m at next level, right associativity).

(** ** The [re] module

    A backtracking matcher for the constructs the patterns of the file
    use.  Alternatives are tried left to right, greedy repetitions take
    the longest run first and give characters back one at a time, lazy
    ones take the shortest first; the first success in that order is the
    match, as in CPython's engine.  Repetition is only ever applied to a
    single character class in the file's patterns. *)

Module Re.

Inductive regex :=
| Chr (p : N -> bool)          (* one character of a class: \d \s [..] . *)
| Lit (l : str)                (* a literal string *)
| Seq (r1 r2 : regex)          (* r1 r2 *)
| Alt (r1 r2 : regex)          (* r1|r2 *)
| Star (p : N -> bool)         (* c* *)
| Plus (p : N -> bool)         (* c+ *)
| StarLazy (p : N -> bool)     (* c*? *)
| Opt (p : N -> bool)          (* c? *)
| Group (i : nat) (r : regex)  (* (r), the i-th group of the pattern *)
| Ahead (r : regex)            (* (?=r) *)
| Eos.                         (* $ without re.MULTILINE *)

(** The groups that took part in a match, the most recent first. *)
Definition caps := list (nat * str).

Fixpoint star_greedy {R} (p : N -> bool) (k : str -> option R) (s : str)
  : option R :=
  match s with
  | c :: s' =>
    if p c
    then match star_greedy p k s' with
         | Some x => Some x
         | None => k s
         end
    else k s
  | [] => k []
  end.

Fixpoint star_lazy {R} (p : N -> bool) (k : str -> option R) (s : str)
  : option R :=
  match k s with
  | Some x => Some x
  | None =>
    match s with
    | c :: s' => if p c then star_lazy p k s' else None
    | [] => None
    end
  end.

(** [run r s g k]: match [r] at the start of [s] with the groups [g]
    already set, then go on with [k] on the rest of the input; [None]
    when every way of matching fails. *)
Fixpoint run (r : regex) {R : Type} (s : str) (g : caps)
    (k : str -> caps -> option R) : option R :=
  match r with
  | Chr p =>
    match s with
    | c :: s' => if p c then k s' g else None
    | [] => None
    end
  | Lit l => if startswith s l then k (drop (length l) s) g else None
  | Seq r1 r2 => run r1 s g (fun s1 g1 => run r2 s1 g1 k)
  | Alt r1 r2 =>
    match run r1 s g k with
    | Some x => Some x
    | None => run r2 s g k
    end
  | Star p => star_greedy p (fun s' => k s' g) s
  | Plus p =>
    match s with
    | c :: s' => if p c then star_greedy p (fun s'' => k s'' g) s' else None
    | [] => None
    end
  | StarLazy p => star_lazy p (fun s' => k s' g) s
  | Opt p =>
    match s with
    | c :: s' =>
      if p c
      then match k s' g with
           | Some x => Some x
           | None => k s g
           end
      else k s g
    | [] => k s g
    end
  | Group i r1 =>
    run r1 s g
      (fun s1 g1 => k s1 ((i, take (length s - length s1) s) :: g1))
  | Ahead r1 =>
    match run r1 s g (fun _ g1 => Some g1) with
    | Some g1 => k s g1
    | None => None
    end
  | Eos =>
    match s with
    | [] => k s g
    | [c] => if c =? 0x0A then k s g else None
    | _ => None
    end
  end.

(** A match anchored at the start of [s]: the input left after it and
    the groups. *)
Definition exec (r : regex) (s : str) : option (str * caps) :=
  run r s [] (fun s' g => Some (s', g)).

(** [m.group(i)]: [None] when the group took no part in the match. *)
Fixpoint group (g : caps) (i : nat) : option str :=
  match g with
  | [] => None
  | (j, t) :: g' => if Nat.eqb i j then Some t else group g' i
  end.

(** [re.search(r, s)]: the leftmost match; the result is the match
    object's groups. *)
Fixpoint search (r : regex) (s : str) : option caps :=
  match exec r s with
  | Some (_, g) => Some g
  | None =>
    match s with
    | [] => None
    | _ :: s' => search r s'
    end
  end.

(** Number of groups of a pattern. *)
Fixpoint ngroups (r : regex) : nat :=
  match r with
  | Seq r1 r2 | Alt r1 r2 => (ngroups r1 + ngroups r2)%nat
  | Group _ r1 => S (ngroups r1)
  | Ahead r1 => ngroups r1
  | _ => O
  end.

(** An element of the list [re.findall] returns: the matched text when
    the pattern has no group, the group's text (a [str]) when it has
    exactly one, a tuple of the groups' texts when it has several. *)
Inductive item :=
| IStr (t : str)
| ITuple (ts : list str).

Definition group_text (g : caps) (i : nat) : str := default [] (group g i).

Definition item_of (r : regex) (whole : str) (g : caps) : item :=
  match ngroups r with
  | O => IStr whole
  | 1%nat => IStr (group_text g 1)
  | n => ITuple (map (group_text g) (seq 1 n))
  end.

(** [re.findall(r, s)]: successive non-overlapping matches, left to
    right.  [skip] counts the characters of the last match still to be
    passed over; the search resumes where the match ended. *)
Fixpoint findall_from (r : regex) (skip : nat) (s : str) : list item :=
  match skip with
  | S n =>
    match s with
    | [] => []
    | _ :: s' => findall_from r n s'
    end
  | O =>
    match exec r s with
    | Some (rest, g) =>
      let len := (length s - length rest)%nat in
      item_of r (take len s) g ::
        match s with
        | [] => []
        | _ :: s' => findall_from r (len - 1) s'
        end
    | None =>
      match s with
      | [] => []
      | _ :: s' => findall_from r 0 s'
      end
    end
  end.

Definition findall (r : regex) (s : str) : list item := findall_from r 0 s.

(** [len(x)] and [x[i]] on an element of [findall]'s result: on a [str]
    they count and return characters, on a tuple groups. *)
Definition item_len (x : item) : nat :=
  match x with
  | IStr t => length t
  | ITuple ts => length ts
  end.

Definition item_index (x : item) (i : nat) : result str :=
  match x with
  | IStr t =>
    match t !! i with
    | Some c => Ok [c]
    | None => Raise IndexError
    end
  | ITuple ts =>
    match ts !! i with
    | Some t => Ok t
    | None => Raise IndexError
    end
  end.

(** [r1 r2 ... rn] *)
Fixpoint cat (rs : list regex) : regex :=
  match rs with
  | [] => Lit []
  | [r] => r
  | r :: rs' => Seq r (cat rs')
  end.

(** Character classes. *)
Definition any_char (c : N) : bool := true.             (* . with re.DOTALL *)
Definition one_of (l : str) (c : N) : bool := existsb (N.eqb c) l.  (* [...] *)

(** A literal character [a] of a pattern compiled with re.IGNORECASE, for
    [a] an ASCII lower-case letter or a character without case: it
    matches itself, its upper-case form, and for [s] and [k] also U+017F
    and U+212A, which lower-case to them. *)
Definition chr_i (a c : N) : bool :=
  (c =? a)
  || ((0x61 <=? a) && (a <=? 0x7A) && (c =? a - 0x20))
  || ((a =? 0x73) && (c =? 0x17F))
  || ((a =? 0x6B) && (c =? 0x212A)).

(** A literal string of a pattern compiled with re.IGNORECASE. *)
Definition lit_i (l : str) : regex := cat (map (fun a => Chr (chr_i a)) l).

(** *** What a match is

    The relation the matcher implements: [matches r s g s' g'] when [r]
    matches a prefix of [s], leaving [s'], and turns the groups [g] into
    [g'].  It says which matches exist; [run] picks the first in priority
    order. *)

Inductive star_rel (p : N -> bool) : str -> str -> Prop :=
| star_stop s : star_rel p s s
| star_more c s s' : p c = true -> star_rel p s s' -> star_rel p (c :: s) s'.

Inductive matches : regex -> str -> caps -> str -> caps -> Prop :=
| M_Chr p c s g : p c = true -> matches (Chr p) (c :: s) g s g
| M_Lit l s g :
    startswith s l = true -> matches (Lit l) s g (drop (length l) s) g
| M_Seq r1 r2 s g s1 g1 s2 g2 :
    matches r1 s g s1 g1 -> matches r2 s1 g1 s2 g2 ->
    matches (Seq r1 r2) s g s2 g2
| M_AltL r1 r2 s g s' g' : matches r1 s g s' g' -> matches (Alt r1 r2) s g s' g'
| M_AltR r1 r2 s g s' g' : matches r2 s g s' g' -> matches (Alt r1 r2) s g s' g'
| M_Star p s g s' : star_rel p s s' -> matches (Star p) s g s' g
| M_Plus p c s g s' :
    p c = true -> star_rel p s s' -> matches (Plus p) (c :: s) g s' g
| M_StarLazy p s g s' : star_rel p s s' -> matches (StarLazy p) s g s' g
| M_OptSome p c s g : p c = true -> matches (Opt p) (c :: s) g s g
| M_OptNone p s g : matches (Opt p) s g s g
| M_Group i r s g s' g' :
    matches r s g s' g' ->
    matches (Group i r) s g s' ((i, take (length s - length s') s) :: g')
| M_Ahead r s g s' g' : matches r s g s' g' -> matches (Ahead r) s g s g'
| M_Eos_end g : matches Eos [] g [] g
| M_Eos_newline g : matches Eos [0x0A] g [0x0A] g.

(** The groups that are set after every match of [r]. *)
Fixpoint sure (r : regex) : list nat :=
  match r with
  | Seq r1 r2 => sure r1 ++ sure r2
  | Alt r1 r2 => List.filter (fun i => existsb (Nat.eqb i) (sure r2)) (sure r1)
  | Group i r1 => i :: sure r1
  | Ahead r1 => sure r1
  | _ => []
  end.

End Re.

Import Re.

(** ** Values and dictionaries

    The values the agent stores in its dictionaries; a dictionary with
    string keys is a [gmap string pyval]. *)

Inductive pyval :=
| VNone
| VBool (b : bool)
| VInt (z : Z)
| VStr (s : str)
| VPaths (l : list str).

(** [sys.get_int_max_str_digits()]: CPython's default limit on the number
    of digits [int()] converts. *)
Definition int_max_str_digits : nat := 4300.

(** [int(x)] where [x] is a group of a match, a string of decimal digits
    or [None]: [int(None)] raises [TypeError], and a string of more than
    4300 digits (leading zeros count) raises [ValueError]. *)
Definition int_of (x : option str) : result Z :=
  match x with
  | Some s =>
    if (int_max_str_digits <? length s)%nat then Raise ValueError
    else Ok (int_of_digits s)
  | None => Raise TypeError
  end.

(** [a or b] on two groups of a match: [None] and the empty string are
    false. *)
Definition py_or (a b : option str) : option str :=
  match a with
  | Some (_ :: _) => a
  | _ => b
  end.

Definition nonempty (s : str) : bool :=
  match s with
  | [] => false
  | _ :: _ => true
  end.

(** ** class TaskType(Enum) *)

Inductive TaskType :=
| TEXT_TO_IMAGE
| IMAGE_TO_IMAGE
| IMAGE_TO_VIDEO
| TEXT_TO_VIDEO
| FIRST_TO_LAST_FRAME
| MULTIMODAL
| BATCH_IMAGE_GENERATION.

Definition value (t : TaskType) : str :=
  match t with
  | TEXT_TO_IMAGE => u "text_to_image"
  | IMAGE_TO_IMAGE => u "image_to_image"
  | IMAGE_TO_VIDEO => u "image_to_video"
  | TEXT_TO_VIDEO => u "text_to_video"
  | FIRST_TO_LAST_FRAME => u "first_to_last_frame"
  | MULTIMODAL => u "multimodal"
  | BATCH_IMAGE_GENERATION => u "batch_image_generation"
  end.

(** ** class DecisionAgent *)

(** [self.keywords], one definition per key. *)
Definition keywords_image_gen : list str :=
  [u "生成圖片"; u "畫"; u "繪製"; u "創建圖像"; u "圖片"; u "插畫";
   u "image"; u "picture"; u "photo"].
Definition keywords_image_transform : list str :=
  [u "修改"; u "轉換"; u "改變"; u "調整"; u "編輯";
   u "transform"; u "modify"; u "edit"; u "change"].
Definition keywords_video_gen : list str :=
  [u "視頻"; u "影片"; u "動畫"; u "動態"; u "video"; u "animation"; u "motion"].
Definition keywords_interpolation : list str :=
  [u "首尾"; u "插值"; u "過渡"; u "中間幀";
   u "interpolate"; u "transition"; u "morph"].

Definition scene_keywords : list str :=
  [u "場景一"; u "場景二"; u "場景三"; u "場景四";
   u "第一張"; u "第二張"; u "第三張"; u "第四張"].

(** The result of [analyze_intent]. *)
Record intent := {
  i_taskType : str;
  i_prompt : str;
  i_fileCount : Z;
  i_reasoning : str;
  i_parameters : gmap string pyval;
  i_confidence : float
}.

(** The dictionary [plan_execution] receives, with the keys it reads;
    [None] is a missing key. *)
Record intent_data := {
  taskType : option str;
  prompt : option str;
  filePaths : option (list str);
  parameters : option (gmap string pyval)
}.

(** One step of an execution plan. *)
Record step := {
  s_step : Z;
  s_action : pyval;
  s_parameters : gmap string pyval;
  s_description : str
}.

(** The result of [validate_input]. *)
Record validation := {
  valid : bool;
  errors : list str
}.

(** The patterns of [_extract_parameters]. *)

(* r'(\d+)\s*秒|(\d+)\s*seconds?' with re.IGNORECASE *)
Definition duration_re : regex :=
  Alt (cat [Group 1 (Plus isdecimal); Star isspace; lit_i (u "秒")])
      (cat [Group 2 (Plus isdecimal); Star isspace; lit_i (u "second");
            Opt (chr_i 0x73)]).

Definition size_patterns : list regex :=
  [ (* r'(\d+)\s*[x×]\s*(\d+)' *)
    cat [Group 1 (Plus isdecimal); Star isspace; Chr (one_of (u "x×"));
         Star isspace; Group 2 (Plus isdecimal)];
    (* r'(\d+)\s*:\s*(\d+)' *)
    cat [Group 1 (Plus isdecimal); Star isspace; Lit (u ":");
         Star isspace; Group 2 (Plus isdecimal)];
    (* r'(\d+)\s*by\s*(\d+)' *)
    cat [Group 1 (Plus isdecimal); Star isspace; Lit (u "by");
         Star isspace; Group 2 (Plus isdecimal)] ].

Definition style_keywords : list (str * list str) :=
  [ (u "realistic", [u "真實"; u "寫實"; u "realistic"; u "photorealistic"]);
    (u "anime", [u "動漫"; u "卡通"; u "anime"; u "cartoon"]);
    (u "artistic", [u "藝術"; u "繪畫"; u "artistic"; u "painting"]);
    (u "cinematic", [u "電影"; u "影視"; u "cinematic"; u "film"]) ].

(** The patterns of [_parse_scenes], all with re.DOTALL. *)
Definition scene_patterns : list regex :=
  [ (* r'場景[一二三四]：(.*?)(?=場景[一二三四]：|$)' *)
    cat [Lit (u "場景"); Chr (one_of (u "一二三四")); Lit (u "：");
         Group 1 (StarLazy any_char);
         Ahead (Alt (cat [Lit (u "場景"); Chr (one_of (u "一二三四"));
                          Lit (u "：")]) Eos)];
    (* r'場景(\d+)：(.*?)(?=場景\d+：|$)' *)
    cat [Lit (u "場景"); Group 1 (Plus isdecimal); Lit (u "：");
         Group 2 (StarLazy any_char);
         Ahead (Alt (cat [Lit (u "場景"); Plus isdecimal; Lit (u "：")]) Eos)];
    (* r'第[一二三四]張：(.*?)(?=第[一二三四]張：|$)' *)
    cat [Lit (u "第"); Chr (one_of (u "一二三四")); Lit (u "張：");
         Group 1 (StarLazy any_char);
         Ahead (Alt (cat [Lit (u "第"); Chr (one_of (u "一二三四"));
                          Lit (u "張：")]) Eos)];
    (* r'第(\d+)張：(.*?)(?=第\d+張：|$)' *)
    cat [Lit (u "第"); Group 1 (Plus isdecimal); Lit (u "張：");
         Group 2 (StarLazy any_char);
         Ahead (Alt (cat [Lit (u "第"); Plus isdecimal; Lit (u "張：")]) Eos)] ].

Definition instruction_words : list str :=
  [u "幫我"; u "請"; u "生成"; u "創建"; u "製作"; u "畫"; u "繪製";
   u "help"; u "create"; u "generate"; u "make"; u "draw"].

(** The loop of [_extract_prompt]: [prompt = prompt.replace(word, '')] for
    each word in turn. *)
Definition remove_words (words : list str) (prompt : str) : str :=
  fold_left (fun p word => replace p word []) words prompt.

Definition _extract_prompt (message : str) : str :=
  let prompt := remove_words instruction_words message in
  let prompt := join (u " ") (split_ws prompt) in
  strip prompt.

(** [f"{width}x{height}"] *)
Definition fmt_size (width height : Z) : str :=
  str_of_int width ++ u "x" ++ str_of_int height.

(** The loop over [size_patterns], left at the first pattern found. *)
Fixpoint extract_size (patterns : list regex) (message : str)
    (params : gmap string pyval) : result (gmap string pyval) :=
  match patterns with
  | [] => Ok params
  | pattern :: rest =>
    match search pattern message with
    | Some size_match =>
      width <- int_of (group size_match 1) ;;
      height <- int_of (group size_match 2) ;;
      Ok (<["size" := VStr (fmt_size width height)]> params)
    | None => extract_size rest message params
    end
  end.

(** [_get_action_description] *)
Definition descriptions : list (str * str) :=
  [ (u "text_to_image", u "根據文字描述生成圖片");
    (u "image_to_image", u "轉換/編輯上傳的圖片");
    (u "image_to_video", u "將圖片轉換為動態視頻");
    (u "text_to_video", u "根據文字描述生成視頻");
    (u "first_to_last_frame", u "使用首尾兩幀生成完整視頻（插值）");
    (u "batch_image_generation", u "參考圖片批量生成多張場景圖片") ].

Definition _get_action_description (task_type : option str) : str :=
  match task_type with
  | Some t =>
    match find (fun kv => str_eqb (fst kv) t) descriptions with
    | Some kv => snd kv
    | None => u "執行未知任務"
    end
  | None => u "執行未知任務"
  end.

(** The loop over [matches] in [_parse_scenes]. *)
Fixpoint collect_scenes (matches : list item) (scenes : list str)
  : result (list str) :=
  match matches with
  | [] => Ok scenes
  | match_ :: rest =>
    scene_text <- (if (1 <? item_len match_)%nat
                   then item_index match_ 1
                   else item_index match_ 0) ;;
    let scene_text := strip scene_text in
    collect_scenes rest
      (if nonempty scene_text then scenes ++ [scene_text] else scenes)
  end.

(** The loop over [scene_patterns], left at the first pattern that has
    a match. *)
Fixpoint scan_patterns (patterns : list regex) (prompt : str)
    (scenes : list str) : result (list str) :=
  match patterns with
  | [] => Ok scenes
  | pattern :: rest =>
    match findall pattern prompt with
    | [] => scan_patterns rest prompt scenes
    | matches => collect_scenes matches scenes
    end
  end.

Definition _parse_scenes (prompt : str) : result (list str) :=
  scenes <- scan_patterns scene_patterns prompt [] ;;
  let scenes :=
    match scenes with
    | [] =>
      let paragraphs :=
        List.filter nonempty (map strip (split_char 0x0A prompt)) in
      if (2 <=? length paragraphs)%nat then tail paragraphs else []
    | _ => scenes
    end in
  Ok (take 4 scenes).

Definition batch_step (file_paths : list str) (total : nat) (i : nat)
    (scene_desc : str) : step :=
  let i := Z.of_nat (S i) in
  {| s_step := i;
     s_action := VStr (u "image_to_image");
     s_parameters :=
       <["prompt" := VStr scene_desc]>
       (<["filePaths" := VPaths file_paths]>
       (<["is_batch" := VBool true]>
       (<["batch_index" := VInt i]>
       (<["total_batches" := VInt (Z.of_nat total)]> ∅))));
     s_description :=
       u "生成第" ++ str_of_int i ++ u "張場景圖：" ++ take 50 scene_desc
         ++ u "..." |}.

Definition _plan_batch_generation (d : intent_data) : result (list step) :=
  let original_prompt := default [] (prompt d) in
  let file_paths := default [] (filePaths d) in
  scenes <- _parse_scenes original_prompt ;;
  Ok (imap (batch_step file_paths (length scenes)) scenes).

Definition opt_str (x : option str) : pyval :=
  match x with
  | Some s => VStr s
  | None => VNone
  end.

Definition plan_execution (d : intent_data) : result (list step) :=
  let task_type := taskType d in
  if bool_decide (task_type = Some (u "batch_image_generation"))
  then _plan_batch_generation d
  else
    Ok [ {| s_step := 1;
            s_action := opt_str task_type;
            s_parameters :=
              default ∅ (parameters d) ∪
              (<["prompt" := opt_str (prompt d)]>
              (<["filePaths" := VPaths (default [] (filePaths d))]> ∅));
            s_description := _get_action_description task_type |} ].

Definition err_scene_format : str :=
  u "請用" ++ [0x22] ++ u "場景一" ++ [0x22] ++ u "、" ++ [0x22]
    ++ u "場景二" ++ [0x22] ++ u "等格式描述各個場景".

Definition append_if (c : bool) (e : str) (errors : list str) : list str :=
  if c then errors ++ [e] else errors.

Definition validate_input (task_type message : str) (file_count : Z)
  : validation :=
  let errors : list str := [] in
  let too_short (n : nat) :=
    negb (nonempty message) || (length (strip message) <? n)%nat in
  let errors :=
    if str_eqb task_type (u "batch_image_generation") then
      let errors :=
        append_if (file_count =? 0)%Z (u "批量圖生圖需要上傳1張參考圖片") errors in
      let errors :=
        append_if (too_short 10%nat)
          (u "請提供詳細的場景描述（至少10個字符）") errors in
      append_if (negb (any_in scene_keywords message)) err_scene_format errors
    else if str_eqb task_type (u "text_to_image") then
      append_if (too_short 3%nat) (u "請提供有效的圖片描述（至少3個字符）") errors
    else if str_eqb task_type (u "image_to_image") then
      let errors :=
        append_if (file_count =? 0)%Z (u "圖生圖需要上傳至少1張圖片") errors in
      append_if (negb (nonempty message)) (u "請說明要如何處理圖片") errors
    else if str_eqb task_type (u "image_to_video") then
      append_if (file_count =? 0)%Z (u "圖生視頻需要上傳1張圖片") errors
    else if str_eqb task_type (u "first_to_last_frame") then
      append_if (file_count <? 2)%Z (u "首尾幀插值需要上傳2張圖片") errors
    else if str_eqb task_type (u "text_to_video") then
      append_if (too_short 5%nat) (u "請提供有效的視頻描述（至少5個字符）") errors
    else errors in
  {| valid := (length errors =? 0)%nat; errors := errors |}.

(** The validator's rules as a table, one row per check of a task type:
    whether the check fails on the input, and the message it then
    reports. *)
Definition validation_rules (task_type message : str) (file_count : Z)
  : list (bool * str) :=
  let too_short (n : nat) :=
    negb (nonempty message) || (length (strip message) <? n)%nat in
  if str_eqb task_type (u "batch_image_generation") then
    [ ((file_count =? 0)%Z, u "批量圖生圖需要上傳1張參考圖片");
      (too_short 10%nat, u "請提供詳細的場景描述（至少10個字符）");
      (negb (any_in scene_keywords message), err_scene_format) ]
  else if str_eqb task_type (u "text_to_image") then
    [ (too_short 3%nat, u "請提供有效的圖片描述（至少3個字符）") ]
  else if str_eqb task_type (u "image_to_image") then
    [ ((file_count =? 0)%Z, u "圖生圖需要上傳至少1張圖片");
      (negb (nonempty message), u "請說明要如何處理圖片") ]
  else if str_eqb task_type (u "image_to_video") then
    [ ((file_count =? 0)%Z, u "圖生視頻需要上傳1張圖片") ]
  else if str_eqb task_type (u "first_to_last_frame") then
    [ ((file_count <? 2)%Z, u "首尾幀插值需要上傳2張圖片") ]
  else if str_eqb task_type (u "text_to_video") then
    [ (too_short 5%nat, u "請提供有效的視頻描述（至少5個字符）") ]
  else [].

(** The task types [validate_input] has rules for. *)
Definition validated_task_types : list str :=
  [u "batch_image_generation"; u "text_to_image"; u "image_to_image";
   u "image_to_video"; u "first_to_last_frame"; u "text_to_video"].

(** The methods that call [str.lower()].  Unicode lower-casing is a table
    of the Python runtime; the agent is verified for every such table. *)

Section WithLower.

Variable lower : str -> str.

Definition _determine_task_type (message : str) (file_count : Z) : TaskType :=
  let batch_keywords :=
    [u "四張"; u "四個"; u "4張"; u "4個"; u "four"; u "4"; u "多張"; u "多個";
     u "batch"; u "生成四"; u "create four"] in
  let has_batch_keyword := any_in batch_keywords (lower message) in
  let has_scene_keywords := any_in scene_keywords message in
  let has_video_keyword := any_in keywords_video_gen message in
  let has_interpolation_keyword := any_in keywords_interpolation message in
  let has_image_gen_keyword := any_in keywords_image_gen message in
  let has_transform_keyword := any_in keywords_image_transform message in
  if (file_count =? 1)%Z && (has_batch_keyword || has_scene_keywords) then
    BATCH_IMAGE_GENERATION
  else if (file_count =? 0)%Z then
    if has_video_keyword then TEXT_TO_VIDEO else TEXT_TO_IMAGE
  else if (file_count =? 1)%Z then
    if has_video_keyword then IMAGE_TO_VIDEO
    else if has_transform_keyword || has_image_gen_keyword then IMAGE_TO_IMAGE
    else (if has_video_keyword then IMAGE_TO_VIDEO else IMAGE_TO_IMAGE)
  else if (file_count =? 2)%Z then
    if has_interpolation_keyword || contains message (u "首")
       || contains message (u "尾")
    then FIRST_TO_LAST_FRAME
    else IMAGE_TO_IMAGE
  else IMAGE_TO_IMAGE.

(** The loop over [style_keywords.items()], left at the first style with
    a keyword in the message. *)
Fixpoint extract_style (styles : list (str * list str)) (message : str)
    (params : gmap string pyval) : gmap string pyval :=
  match styles with
  | [] => params
  | (style, keywords) :: rest =>
    if any_in keywords (lower message)
    then <["style" := VStr style]> params
    else extract_style rest message params
  end.

Definition _extract_parameters (message : str)
  : result (gmap string pyval) :=
  let params : gmap string pyval := ∅ in
  params <-
    match search duration_re message with
    | Some duration_match =>
      duration <- int_of (py_or (group duration_match 1)
                                (group duration_match 2)) ;;
      Ok (<["duration" := VInt (Z.min (Z.max duration 1) 10)]> params)
    | None => Ok (<["duration" := VInt 5]> params)
    end ;;
  params <- extract_size size_patterns message params ;;
  Ok (extract_style style_keywords message params).

Definition _generate_reasoning (task_type : TaskType) (message : str)
    (file_count : Z) : str :=
  let reasons : list str := [] in
  let reasons :=
    if (file_count =? 0)%Z then reasons ++ [u "未上傳文件"]
    else reasons ++ [u "上傳了 " ++ str_of_int file_count ++ u " 個文件"] in
  let reasons :=
    match task_type with
    | BATCH_IMAGE_GENERATION =>
      (reasons ++ [u "包含批量生成關鍵詞（四張/四個/場景等）"])
        ++ [u "需要參考圖片生成多個不同場景"]
    | _ => reasons
    end in
  let reasons :=
    if contains message (u "視頻") || contains (lower message) (u "video")
    then reasons ++ [u "消息中包含視頻相關詞彙"] else reasons in
  let reasons :=
    if contains message (u "圖片") || contains (lower message) (u "image")
    then reasons ++ [u "消息中包含圖片相關詞彙"] else reasons in
  let reasons :=
    if contains message (u "首尾") || contains message (u "插值")
    then reasons ++ [u "消息中包含插值相關詞彙"] else reasons in
  u "判斷為 " ++ value task_type ++ u "，因為: " ++ join (u "、") reasons.

(** [min(a, b)] on floats: [b] when [b < a], else [a]. *)
Definition fmin (a b : float) : float := if PrimFloat.ltb b a then b else a.

Definition _calculate_confidence (message : str) (file_count : Z)
    (task_type : TaskType) : float :=
  let confidence := 0.5%float in
  let confidence :=
    match task_type with
    | BATCH_IMAGE_GENERATION =>
      let batch_keywords :=
        [u "四張"; u "四個"; u "4張"; u "4個"; u "four"; u "4"; u "多張";
         u "多個"; u "batch"] in
      let confidence :=
        if any_in batch_keywords (lower message)
        then (confidence + 0.4)%float else confidence in
      let confidence :=
        if any_in scene_keywords message
        then (confidence + 0.3)%float else confidence in
      if (file_count =? 1)%Z then (confidence + 0.2)%float else confidence
    | TEXT_TO_IMAGE =>
      if any_in keywords_image_gen message
      then (confidence + 0.3)%float else confidence
    | IMAGE_TO_VIDEO =>
      if any_in keywords_video_gen message
      then (confidence + 0.3)%float else confidence
    | FIRST_TO_LAST_FRAME =>
      if any_in keywords_interpolation message
      then (confidence + 0.4)%float else confidence
    | _ => confidence
    end in
  let confidence :=
    match task_type with
    | FIRST_TO_LAST_FRAME =>
      if (file_count =? 2)%Z then (confidence + 0.2)%float else confidence
    | _ => confidence
    end in
  fmin confidence 1.0%float.

Definition analyze_intent (message : str) (file_count : Z) : result intent :=
  let message_lower := lower message in
  let task_type := _determine_task_type message_lower file_count in
  let prompt := _extract_prompt message in
  let reasoning := _generate_reasoning task_type message file_count in
  parameters <- _extract_parameters message ;;
  Ok {| i_taskType := value task_type;
        i_prompt := prompt;
        i_fileCount := file_count;
        i_reasoning := reasoning;
        i_parameters := parameters;
        i_confidence := _calculate_confidence message file_count task_type |}.

End WithLower.

(** The prompt "場景一：貓在跳舞\n場景二：狗在跑步". *)
Definition two_scenes : str :=
  u "場景一：貓在跳舞" ++ [0x0A] ++ u "場景二：狗在跑步".

(** * Properties *)

(** ** The Python runtime model on examples *)

Example u_ascii : u "4x" = [0x34; 0x78].
Proof. reflexivity. Qed.

Example u_cjk : u "場景一：" = [0x5834; 0x666F; 0x4E00; 0xFF1A].
Proof. reflexivity. Qed.

Example replace_nonoverlap : replace (u "aaa") (u "aa") (u "b") = u "ba".
Proof. reflexivity. Qed.

Example split_ws_ex : split_ws (u "  a  bc ") = [u "a"; u "bc"].
Proof. reflexivity. Qed.

Example str_of_int_ex : str_of_int 1920 = u "1920" /\ str_of_int (-3) = u "-3".
Proof. split; reflexivity. Qed.

Example int_of_digits_ex : int_of_digits (u "016") = 16%Z.
Proof. reflexivity. Qed.


Example search_duration_ignorecase :
  search duration_re (u "12 SECONDS") = Some [(2%nat, u "12")].
Proof. reflexivity. Qed.

(** ** The matcher only returns matches *)

Lemma star_rel_length p s s' : star_rel p s s' -> (length s' <= length s)%nat.
Proof. induction 1; simpl; lia. Qed.

Lemma star_greedy_sound {R} p (k : str -> option R) s x :
  star_greedy p k s = Some x -> exists s', star_rel p s s' /\ k s' = Some x.
Proof.
  induction s as [|c s IH]; simpl; intros H.
  - exists []. split; [constructor | exact H].
  - destruct (p c) eqn:Hp.
    + destruct (star_greedy p k s) as [y|] eqn:Hs.
      * destruct (IH H) as (s' & Hrel & Hk).
        exists s'. split; [now constructor | exact Hk].
      * exists (c :: s). split; [constructor | exact H].
    + exists (c :: s). split; [constructor | exact H].
Qed.

Lemma star_lazy_sound {R} p (k : str -> option R) s x :
  star_lazy p k s = Some x -> exists s', star_rel p s s' /\ k s' = Some x.
Proof.
  induction s as [|c s IH]; simpl; intros H.
  - destruct (k []) eqn:Hk; [|discriminate].
    exists []. split; [constructor | congruence].
  - destruct (k (c :: s)) eqn:Hk.
    + exists (c :: s). split; [constructor | congruence].
    + destruct (p c) eqn:Hp; [|discriminate].
      destruct (IH H) as (s' & Hrel & Hk').
      exists s'. split; [now constructor | exact Hk'].
Qed.

Lemma run_sound r : forall R s g (k : str -> caps -> option R) x,
  run r s g k = Some x ->
  exists s' g', matches r s g s' g' /\ k s' g' = Some x.
Proof.
  induction r as [p|l|r1 IH1 r2 IH2|r1 IH1 r2 IH2|p|p|p|p|i r IH|r IH|];
    intros R s g k x H; simpl in H.
  - destruct s as [|c s]; [discriminate|].
    destruct (p c) eqn:Hp; [|discriminate].
    exists s, g. split; [now constructor | exact H].
  - destruct (startswith s l) eqn:Hl; [|discriminate].
    exists (drop (length l) s), g. split; [now constructor | exact H].
  - apply IH1 in H as (s1 & g1 & M1 & H).
    apply IH2 in H as (s2 & g2 & M2 & H).
    exists s2, g2. split; [econstructor; eassumption | exact H].
  - destruct (run r1 s g k) as [y|] eqn:H1.
    + apply IH1 in H1 as (s' & g' & M & Hk).
      exists s', g'. split; [now apply M_AltL | congruence].
    + apply IH2 in H as (s' & g' & M & Hk).
      exists s', g'. split; [now apply M_AltR | exact Hk].
  - apply star_greedy_sound in H as (s' & Hrel & Hk).
    exists s', g. split; [now constructor | exact Hk].
  - destruct s as [|c s]; [discriminate|].
    destruct (p c) eqn:Hp; [|discriminate].
    apply star_greedy_sound in H as (s' & Hrel & Hk).
    exists s', g. split; [now constructor | exact Hk].
  - apply star_lazy_sound in H as (s' & Hrel & Hk).
    exists s', g. split; [now constructor | exact Hk].
  - destruct s as [|c s].
    + exists [], g. split; [constructor | exact H].
    + destruct (p c) eqn:Hp.
      * destruct (k s g) as [y|] eqn:Hk.
        -- exists s, g. split; [now constructor | congruence].
        -- exists (c :: s), g. split; [constructor | exact H].
      * exists (c :: s), g. split; [constructor | exact H].
  - apply IH in H as (s' & g' & M & Hk).
    eexists _, _. split; [constructor; exact M | exact Hk].
  - destruct (run r s g (fun _ g1 => Some g1)) as [g1|] eqn:H1; [|discriminate].
    apply IH in H1 as (s' & g' & M & Hk).
    injection Hk as ->.
    exists s, g1. split; [econstructor; exact M | exact H].
  - destruct s as [|c [|c' s]].
    + exists [], g. split; [constructor | exact H].
    + destruct (c =? 0x0A) eqn:Hc; [|discriminate].
      apply N.eqb_eq in Hc as ->.
      exists [0x0A], g. split; [constructor | exact H].
    + discriminate.
Qed.

Lemma search_matches r s g :
  search r s = Some g -> exists t t', matches r t [] t' g.
Proof.
  induction s as [|c s IH]; simpl; unfold exec.
  - destruct (run r [] [] _) as [[t' g']|] eqn:H; [|discriminate].
    intros [= <-]. apply run_sound in H as (s' & g'' & M & [= <- <-]).
    eauto.
  - destruct (run r (c :: s) [] _) as [[t' g']|] eqn:H.
    + intros [= <-]. apply run_sound in H as (s' & g'' & M & [= <- <-]).
      eauto.
    + exact IH.
Qed.

(** A match sets its sure groups and keeps the groups already set. *)
Lemma matches_sure r s g s' g' :
  matches r s g s' g' ->
  forall i, In i (sure r) \/ is_Some (group g i) -> is_Some (group g' i).
Proof.
  induction 1; simpl; intros j Hj;
    try (destruct Hj as [[]|Hj]; exact Hj).
  - apply IHmatches2. rewrite in_app_iff in Hj.
    destruct Hj as [[Hj|Hj]|Hj]; [right; apply IHmatches1| |right; apply IHmatches1];
      auto.
  - apply IHmatches. destruct Hj as [Hj|Hj]; [left|now right].
    apply filter_In in Hj. tauto.
  - apply IHmatches. destruct Hj as [Hj|Hj]; [left|now right].
    apply filter_In in Hj as [_ Hj].
    apply existsb_exists in Hj as (j' & Hin & Heq).
    apply Nat.eqb_eq in Heq. now subst.
  - destruct (Nat.eqb j i) eqn:E; [eauto|].
    apply IHmatches. destruct Hj as [[Hj|Hj]|Hj]; auto.
    subst. now rewrite Nat.eqb_refl in E.
  - apply IHmatches. exact Hj.
Qed.

(** A pattern without groups leaves the groups as they were. *)
Lemma matches_nogroup r s g s' g' :
  matches r s g s' g' -> ngroups r = 0%nat -> g' = g.
Proof.
  induction 1; simpl; intros Hn; try reflexivity; try discriminate.
  - rewrite IHmatches2, IHmatches1 by lia. reflexivity.
  - apply IHmatches; lia.
  - apply IHmatches; lia.
  - apply IHmatches; exact Hn.
Qed.

(** The text of a group [(c+)] is not empty. *)
Lemma matches_group_plus i p s g s' g' :
  matches (Group i (Plus p)) s g s' g' ->
  exists c t, g' = (i, c :: t) :: g.
Proof.
  inversion 1 as [| | | | | | | | | |i0 r0 s0 g0 s0' g0' M| | |]; subst.
  inversion M as [| | | | | |p0 c s1 g1 s1' Hp Hrel| | | | | | |]; subst.
  apply star_rel_length in Hrel.
  replace (length (c :: s1) - length s')%nat
    with (S (length s1 - length s')) by (simpl; lia).
  simpl. eauto.
Qed.

(** A match consumes a prefix of the input, and the text of every group
    it sets is a piece of that input. *)
Lemma matches_length r s g s' g' :
  matches r s g s' g' -> (length s' <= length s)%nat.
Proof.
  induction 1; simpl; try lia;
    try (match goal with H : star_rel _ _ _ |- _ =>
           apply star_rel_length in H end; simpl; lia).
  rewrite length_drop. lia.
Qed.

Lemma matches_caps_bound n r s g s' g' :
  matches r s g s' g' ->
  (length s <= n)%nat ->
  Forall (fun ix => (length (snd ix) <= n)%nat) g ->
  Forall (fun ix => (length (snd ix) <= n)%nat) g'.
Proof.
  induction 1; intros Hn Hg; auto.
  - apply IHmatches2; [|now apply IHmatches1].
    apply matches_length in H. lia.
  - constructor; [|now apply IHmatches].
    cbn [snd]. rewrite length_take. lia.
Qed.

Lemma group_In g i x : group g i = Some x -> In (i, x) g.
Proof.
  induction g as [|[j t] g IH]; simpl; [discriminate|].
  destruct (Nat.eqb i j) eqn:E.
  - intros [= ->]. apply Nat.eqb_eq in E as ->. now left.
  - intros H. right. now apply IH.
Qed.

Lemma search_matches_suffix r s g :
  search r s = Some g ->
  exists t t', matches r t [] t' g /\ (length t <= length s)%nat.
Proof.
  induction s as [|c s IH]; simpl; unfold exec.
  - destruct (run r [] [] _) as [[t' g']|] eqn:H; [|discriminate].
    intros [= <-]. apply run_sound in H as (s' & g'' & M & [= <- <-]).
    exists [], s'. split; [exact M | reflexivity].
  - destruct (run r (c :: s) [] _) as [[t' g']|] eqn:H.
    + intros [= <-]. apply run_sound in H as (s' & g'' & M & [= <- <-]).
      exists (c :: s), s'. split; [exact M | reflexivity].
    + intros Hs. destruct (IH Hs) as (t & t' & M & Hl).
      exists t, t'. split; [exact M | simpl; lia].
Qed.

(** The text of a group of a match found in [m] is not longer than [m]. *)
Lemma search_group_length r m g i x :
  search r m = Some g -> group g i = Some x -> (length x <= length m)%nat.
Proof.
  intros Hs Hg. apply search_matches_suffix in Hs as (t & t' & M & Hl).
  apply (matches_caps_bound (length m)) in M; [|exact Hl|constructor].
  apply group_In in Hg. rewrite List.Forall_forall in M.
  exact (M _ Hg).
Qed.

(** ** [_extract_parameters]: when it returns and what it can raise *)

Lemma digits_short (s : str) n :
  (length s <= n)%nat -> (n <= int_max_str_digits)%nat ->
  (int_max_str_digits <? length s)%nat = false.
Proof. intros H1 H2. apply Nat.ltb_ge. lia. Qed.

(** Case analysis on the [int()] calls of the goal or of a hypothesis. *)
Ltac int_of_cases :=
  unfold int_of;
  repeat match goal with
         | |- context [(int_max_str_digits <? ?n)%nat] =>
             destruct (int_max_str_digits <? n)%nat eqn:?; cbn [bind]
         end.

Ltac int_of_cases_in H :=
  unfold int_of in H;
  repeat match type of H with
         | context [(int_max_str_digits <? ?n)%nat] =>
             destruct (int_max_str_digits <? n)%nat eqn:?; cbn [bind] in H
         end.

Lemma py_or_cases a b x : py_or a b = Some x -> a = Some x \/ b = Some x.
Proof. destruct a as [[|c t]|]; simpl; auto. Qed.

(** A match of the duration pattern sets group 1 or group 2 to a
    non-empty text, so [int(group(1) or group(2))] receives a string. *)
Lemma duration_groups m g :
  search duration_re m = Some g ->
  exists c t, py_or (group g 1) (group g 2) = Some (c :: t).
Proof.
  intros H. apply search_matches in H as (t & t' & M).
  unfold duration_re in M. cbn [cat] in M.
  inversion M as [| | |r1 r2 s0 g0 s0' g0' ML|r1 r2 s0 g0 s0' g0' MR
                  | | | | | | | | |]; subst.
  - inversion ML as [| |r1 r2 s0 g0 s1 g1 s2 g2 M1 M2| | | | | | | | | | |]; subst.
    apply matches_group_plus in M1 as (c & w & ->).
    apply matches_nogroup in M2 as ->; [|reflexivity].
    exists c, w. reflexivity.
  - inversion MR as [| |r1 r2 s0 g0 s1 g1 s2 g2 M1 M2| | | | | | | | | | |]; subst.
    apply matches_group_plus in M1 as (c & w & ->).
    apply matches_nogroup in M2 as ->; [|reflexivity].
    exists c, w. reflexivity.
Qed.

(** A match of a size pattern sets groups 1 and 2. *)
Lemma size_groups pattern m g :
  In pattern size_patterns -> search pattern m = Some g ->
  exists w h, group g 1 = Some w /\ group g 2 = Some h.
Proof.
  intros Hin H. apply search_matches in H as (t & t' & M).
  assert (Hs : sure pattern = [1%nat; 2%nat]).
  { simpl in Hin. destruct Hin as [<-|[<-|[<-|[]]]]; reflexivity. }
  destruct (matches_sure _ _ _ _ _ M 1%nat) as [w Hw];
    [left; rewrite Hs; simpl; auto|].
  destruct (matches_sure _ _ _ _ _ M 2%nat) as [h Hh];
    [left; rewrite Hs; simpl; auto|].
  eauto.
Qed.

(** The loop over the size patterns: either no pattern has a match and
    the dictionary is unchanged, or the first pattern that has one gives
    the two numbers, which go through [int()]. *)
Lemma extract_size_spec patterns m params :
  (forall p, In p patterns -> In p size_patterns) ->
  (Forall (fun p => search p m = None) patterns /\
   extract_size patterns m params = Ok params)
  \/
  (exists pre pat post g w h,
      patterns = pre ++ pat :: post /\
      Forall (fun p => search p m = None) pre /\
      search pat m = Some g /\
      group g 1 = Some w /\ group g 2 = Some h /\
      extract_size patterns m params =
        (width <- int_of (group g 1) ;;
         height <- int_of (group g 2) ;;
         Ok (<["size" := VStr (fmt_size width height)]> params))).
Proof.
  induction patterns as [|p ps IH]; intros Hsub.
  - left. split; [constructor | reflexivity].
  - cbn [extract_size]. destruct (search p m) as [g|] eqn:Hs.
    + right. destruct (size_groups p m g) as (w & h & Hw & Hh);
        [apply Hsub; now left | exact Hs |].
      exists [], p, ps, g, w, h.
      repeat split; auto.
    + destruct IH as [[Hall Heq]|(pre & pat & post & g & w & h & -> & Hpre & Hrest)].
      * intros q Hq. apply Hsub. now right.
      * left. split; [now constructor | exact Heq].
      * right. exists (p :: pre), pat, post, g, w, h.
        split; [reflexivity|]. split; [now constructor | exact Hrest].
Qed.

(** What the size loop returns, when it returns. *)
Lemma extract_size_ok patterns m params p1 :
  (forall p, In p patterns -> In p size_patterns) ->
  extract_size patterns m params = Ok p1 ->
  (Forall (fun p => search p m = None) patterns /\ p1 = params)
  \/
  (exists pre pat post g w h,
      patterns = pre ++ pat :: post /\
      Forall (fun p => search p m = None) pre /\
      search pat m = Some g /\
      group g 1 = Some w /\ group g 2 = Some h /\
      p1 = <["size" := VStr (fmt_size (int_of_digits w) (int_of_digits h))]>
             params).
Proof.
  intros Hsub Hok.
  destruct (extract_size_spec patterns m params Hsub)
    as [[Hall E]|(pre & pat & post & g & w & h & Hs & Hpre & Hg & Hw & Hh & E)];
    rewrite E in Hok.
  - left. split; [exact Hall | congruence].
  - right. exists pre, pat, post, g, w, h.
    rewrite Hw, Hh in Hok. int_of_cases_in Hok; try discriminate.
    injection Hok as <-. repeat split; assumption.
Qed.

Lemma extract_size_returns patterns m params :
  (forall p, In p patterns -> In p size_patterns) ->
  (length m <= int_max_str_digits)%nat ->
  exists p1, extract_size patterns m params = Ok p1.
Proof.
  intros Hsub Hm.
  destruct (extract_size_spec patterns m params Hsub)
    as [[Hall E]|(pre & pat & post & g & w & h & Hs & Hpre & Hg & Hw & Hh & E)];
    rewrite E; [eauto|].
  rewrite Hw, Hh. unfold int_of.
  rewrite (digits_short w (length m)), (digits_short h (length m));
    eauto using search_group_length.
Qed.


Section ParametersFacts.

Variable lower : str -> str.

Lemma extract_style_other styles m (params : gmap string pyval) (k : string) :
  k <> "style"%string ->
  extract_style lower styles m params !! k = params !! k.
Proof.
  intros Hk. induction styles as [|[style kws] rest IH]; simpl; [reflexivity|].
  destruct (any_in kws (lower m)); [|exact IH].
  now rewrite lookup_insert_ne.
Qed.


(** What [_extract_parameters] returns, when it returns: the duration is
    written first (the detected number, clamped, or the default), then
    the size loop and the style loop run. *)
Lemma extract_parameters_ok m params :
  _extract_parameters lower m = Ok params ->
  exists d p1,
    match search duration_re m with
    | Some g =>
      exists digits,
        py_or (group g 1) (group g 2) = Some digits /\
        d = Z.min (Z.max (int_of_digits digits) 1) 10
    | None => d = 5%Z
    end /\
    extract_size size_patterns m (<["duration" := VInt d]> ∅) = Ok p1 /\
    params = extract_style lower style_keywords m p1.
Proof.
  unfold _extract_parameters.
  destruct (search duration_re m) as [g|] eqn:Hd.
  - destruct (duration_groups m g Hd) as (c & t & ->).
    int_of_cases; [discriminate|].
    set (d := Z.min (Z.max (int_of_digits (c :: t)) 1) 10).
    destruct (extract_size size_patterns m (<["duration" := VInt d]> ∅))
      as [p1|e] eqn:Hsz; cbn [bind]; [|discriminate].
    intros [= <-]. exists d, p1. split; [|split; [exact Hsz | reflexivity]].
    exists (c :: t). split; reflexivity.
  - cbn [bind].
    destruct (extract_size size_patterns m (<["duration" := VInt 5]> ∅))
      as [p1|e] eqn:Hsz; cbn [bind]; [|discriminate].
    intros [= <-]. exists 5%Z, p1. repeat split. exact Hsz.
Qed.

(** On a message of at most 4300 characters no number is too long for
    [int()], and [_extract_parameters] returns. *)
Lemma extract_parameters_returns m :
  (length m <= int_max_str_digits)%nat ->
  exists params, _extract_parameters lower m = Ok params.
Proof.
  intros Hm. unfold _extract_parameters.
  destruct (search duration_re m) as [g|] eqn:Hd.
  - destruct (duration_groups m g Hd) as (c & t & Hor). rewrite Hor.
    unfold int_of. rewrite (digits_short (c :: t) (length m)); [|  |exact Hm].
    + cbn [bind].
      destruct (extract_size_returns size_patterns m
                  (<["duration" :=
                       VInt (Z.min (Z.max (int_of_digits (c :: t)) 1) 10)]> ∅))
        as [p1 ->]; auto. cbn [bind]. eauto.
    + apply py_or_cases in Hor as [Hg|Hg];
        exact (search_group_length _ _ _ _ _ Hd Hg).
  - cbn [bind].
    destruct (extract_size_returns size_patterns m (<["duration" := VInt 5]> ∅))
      as [p1 ->]; auto. cbn [bind]. eauto.
Qed.


(** A duration of more than 4300 digits makes [int()] raise. *)
Example extract_parameters_value_error :
  _extract_parameters lower (repeat 0x31 4301 ++ u "秒") = Raise ValueError.
Proof. vm_compute. reflexivity. Qed.

End ParametersFacts.

(** ** The scene splitter *)

(** [re.findall] with the first pattern, which has one group, returns the
    two captured texts as strings. *)
Example findall_two_scenes :
  findall (nth 0 scene_patterns Eos) two_scenes
  = [IStr (u "貓在跳舞" ++ [0x0A]); IStr (u "狗在跑步")].
Proof. reflexivity. Qed.

(** The same scenes labelled with digits go through the second pattern,
    which has two groups: the elements are tuples and [match[1]] is the
    scene text. *)
Example parse_scenes_numbered :
  _parse_scenes (u "場景1：貓在跳舞" ++ [0x0A] ++ u "場景2：狗在跑步")
  = Ok [u "貓在跳舞"; u "狗在跑步"].
Proof. reflexivity. Qed.

(** An empty capture of a one-group pattern makes [match[0]] raise. *)
Example parse_scenes_raises :
  _parse_scenes (u "場景一：場景二：abc") = Raise IndexError.
Proof. reflexivity. Qed.

(** C1. On "場景一：貓在跳舞\n場景二：狗在跑步" the scene splitter does not
    return the two scene texts: each element of [findall]'s result is a
    string, [len(match) > 1] holds, and [match[1]] is its second
    character, so the result is ["在", "在"]. *)
Theorem parse_scenes_two_scenes :
  _parse_scenes two_scenes = Ok [u "在"; u "在"]
  /\ _parse_scenes two_scenes <> Ok [u "貓在跳舞"; u "狗在跑步"].
Proof. split; [reflexivity | discriminate]. Qed.

(** ** The task classifier *)

Section ClassifierFacts.

Variable lower : str -> str.

(** C3. With no attachment the task type is TextToVideo when the message
    contains a video keyword and TextToImage otherwise, so it is none of
    the four types that need an attachment; whenever [analyze_intent]
    returns it reports that type for the lower-cased message, and it
    returns for every message of at most 4300 characters. *)
Theorem determine_task_type_no_files (message : str) :
  _determine_task_type lower message 0
  = (if any_in keywords_video_gen message then TEXT_TO_VIDEO
     else TEXT_TO_IMAGE)
  /\ ~ In (_determine_task_type lower message 0)
          [IMAGE_TO_IMAGE; IMAGE_TO_VIDEO; FIRST_TO_LAST_FRAME;
           BATCH_IMAGE_GENERATION]
  /\ (forall r, analyze_intent lower message 0 = Ok r ->
       i_taskType r
       = value (if any_in keywords_video_gen (lower message)
                then TEXT_TO_VIDEO else TEXT_TO_IMAGE))
  /\ ((length message <= int_max_str_digits)%nat ->
      exists r, analyze_intent lower message 0 = Ok r).
Proof.
  assert (H : forall m, _determine_task_type lower m 0
            = if any_in keywords_video_gen m then TEXT_TO_VIDEO
              else TEXT_TO_IMAGE) by reflexivity.
  split; [apply H|]. split; [|split].
  - rewrite H. destruct (any_in keywords_video_gen message); simpl;
      intros [E|[E|[E|[E|[]]]]]; discriminate.
  - intros r. unfold analyze_intent.
    destruct (_extract_parameters lower message) as [params|e]; cbn [bind];
      [|discriminate].
    intros [= <-]. cbn [i_taskType]. now rewrite H.
  - intros Hm. unfold analyze_intent.
    destruct (extract_parameters_returns lower message Hm) as (params & ->).
    cbn [bind]. eauto.
Qed.

(** ** The confidence scorer *)

(** C9. The confidence is a float between 0.0 and 1.0, both included,
    for every message, attachment count and task type. *)
Theorem confidence_in_unit_interval (message : str) (file_count : Z)
    (task_type : TaskType) :
  PrimFloat.leb 0.0 (_calculate_confidence lower message file_count task_type)
    = true
  /\ PrimFloat.leb (_calculate_confidence lower message file_count task_type)
       1.0 = true.
Proof.
  unfold _calculate_confidence.
  destruct task_type;
    repeat match goal with
           | |- context [if ?b then _ else _] =>
               match b with
               | PrimFloat.ltb _ _ => fail 1
               | _ => destruct b
               end
           end;
    split; vm_compute; reflexivity.
Qed.

End ClassifierFacts.

Lemma determine_task_type_no_files_witness :
  exists r, analyze_intent (fun s => s) (u "幫我畫一隻貓") 0 = Ok r /\
            i_taskType r = value TEXT_TO_IMAGE.
Proof.
  destruct (determine_task_type_no_files (fun s => s) (u "幫我畫一隻貓"))
    as (_ & _ & Hty & Hret).
  destruct Hret as [r Hr]; [apply Nat.leb_le; vm_compute; reflexivity|].
  exists r. split; [exact Hr|]. rewrite (Hty r Hr). vm_compute. reflexivity.
Defined.

(** ** The validator *)

Lemma validate_input_rules task_type message file_count :
  errors (validate_input task_type message file_count)
  = map snd (List.filter fst (validation_rules task_type message file_count)).
Proof.
  unfold validate_input, validation_rules. cbn [errors]. cbv beta zeta.
  repeat lazymatch goal with
         | |- context [if str_eqb ?a ?b then _ else _] =>
             case (str_eqb a b)
         end;
    repeat match goal with
           | |- context [append_if ?c _ _] =>
               lazymatch c with
               | true => fail
               | false => fail
               | _ => case c
               end
           end;
    cbn [append_if app map List.filter fst snd]; reflexivity.
Qed.

(** C7. The errors of the validator are the messages of all the failing
    rules of the task type, in rule order, one per failing rule (no rule
    is skipped because an earlier one failed); [valid] is true exactly
    when there is no error; and BatchImageGeneration with an empty
    message and no attachment is invalid with three distinct errors. *)
Theorem validate_input_all_rules (task_type message : str) (file_count : Z) :
  errors (validate_input task_type message file_count)
  = map snd (List.filter fst (validation_rules task_type message file_count))
  /\ (valid (validate_input task_type message file_count) = true
      <-> errors (validate_input task_type message file_count) = [])
  /\ valid (validate_input (u "batch_image_generation") [] 0) = false
  /\ (3 <= length (errors (validate_input (u "batch_image_generation") [] 0)))%nat
  /\ NoDup (errors (validate_input (u "batch_image_generation") [] 0)).
Proof.
  split; [apply validate_input_rules|]. split.
  - unfold validate_input. cbn [valid errors].
    match goal with |- context [length ?l] => generalize l end.
    intros [|e l]; simpl; split; congruence.
  - split; [reflexivity|]. split; [vm_compute; lia|].
    apply (bool_decide_unpack _). vm_compute. exact I.
Qed.

(** C10. For a task type the validator has no rule for (Multimodal, or
    any other string), the result is valid with no error, whatever the
    message and the attachment count. *)
Theorem validate_input_other_types (task_type message : str) (file_count : Z) :
  task_type ∉ validated_task_types ->
  validate_input task_type message file_count
  = {| valid := true; errors := [] |}.
Proof.
  intros Hnot. unfold validate_input, str_eqb.
  repeat match goal with
         | |- context [bool_decide (task_type = ?t)] =>
             destruct (bool_decide_reflect (task_type = t)) as [E|_];
               [exfalso; apply Hnot; rewrite E;
                apply (bool_decide_unpack _); vm_compute; exact I|]
         end.
  reflexivity.
Qed.

Lemma validate_input_other_types_witness :
  validate_input (value MULTIMODAL) (u "anything") 0
  = {| valid := true; errors := [] |}.
Proof.
  apply validate_input_other_types.
  apply (bool_decide_unpack _). vm_compute. exact I.
Defined.

(** ** The execution planner *)

Lemma plan_execution_batch d :
  taskType d = Some (u "batch_image_generation") ->
  plan_execution d = _plan_batch_generation d.
Proof.
  intros H. unfold plan_execution. rewrite H.
  now rewrite bool_decide_eq_true_2.
Qed.

Lemma parse_scenes_length prompt scenes :
  _parse_scenes prompt = Ok scenes -> (length scenes <= 4)%nat.
Proof.
  unfold _parse_scenes.
  destruct (scan_patterns scene_patterns prompt []) as [l|e]; cbn [bind];
    [|discriminate].
  intros [= <-]. rewrite length_take. lia.
Qed.

(** C2. When the scene splitter parses the prompt of a
    BatchImageGeneration classification into the scenes [scenes] (there
    are at most 4), the plan has one step per scene in order: step number
    and batch index i (from 1), action ImageToImage, the scene as prompt,
    the full list of attachments, and total_batches the number of
    scenes. *)
Theorem plan_batch_steps (d : intent_data) (scenes : list str) :
  taskType d = Some (u "batch_image_generation") ->
  _parse_scenes (default [] (prompt d)) = Ok scenes ->
  (length scenes <= 4)%nat /\
  exists plan,
    plan_execution d = Ok plan /\
    length plan = length scenes /\
    forall (i : nat) (scene : str),
      scenes !! i = Some scene ->
      exists st,
        plan !! i = Some st /\
        s_step st = Z.of_nat (i + 1) /\
        s_action st = VStr (value IMAGE_TO_IMAGE) /\
        s_parameters st !! "prompt"%string = Some (VStr scene) /\
        s_parameters st !! "filePaths"%string
          = Some (VPaths (default [] (filePaths d))) /\
        s_parameters st !! "is_batch"%string = Some (VBool true) /\
        s_parameters st !! "batch_index"%string
          = Some (VInt (Z.of_nat (i + 1))) /\
        s_parameters st !! "total_batches"%string
          = Some (VInt (Z.of_nat (length scenes))).
Proof.
  intros Ht Hp. split; [eapply parse_scenes_length; exact Hp|].
  rewrite (plan_execution_batch d Ht). unfold _plan_batch_generation.
  rewrite Hp. cbn [bind]. eexists. split; [reflexivity|].
  split; [apply length_imap|].
  intros i scene Hi. eexists. split.
  - rewrite list_lookup_imap, Hi. reflexivity.
  - replace (i + 1)%nat with (S i) by lia.
    unfold batch_step; cbn [s_step s_action s_parameters].
    repeat split; reflexivity.
Qed.

Lemma plan_batch_steps_witness :
  let d := {| taskType := Some (u "batch_image_generation");
              prompt := Some (u "場景1：ab場景2：cd");
              filePaths := Some [u "ref.png"];
              parameters := None |} in
  (length [u "ab"; u "cd"] <= 4)%nat /\
  exists plan,
    plan_execution d = Ok plan /\
    length plan = length [u "ab"; u "cd"] /\
    forall (i : nat) (scene : str),
      [u "ab"; u "cd"] !! i = Some scene ->
      exists st,
        plan !! i = Some st /\
        s_step st = Z.of_nat (i + 1) /\
        s_action st = VStr (value IMAGE_TO_IMAGE) /\
        s_parameters st !! "prompt"%string = Some (VStr scene) /\
        s_parameters st !! "filePaths"%string
          = Some (VPaths (default [] (filePaths d))) /\
        s_parameters st !! "is_batch"%string = Some (VBool true) /\
        s_parameters st !! "batch_index"%string
          = Some (VInt (Z.of_nat (i + 1))) /\
        s_parameters st !! "total_batches"%string
          = Some (VInt (Z.of_nat (length [u "ab"; u "cd"]))).
Proof.
  intros d. apply (plan_batch_steps d [u "ab"; u "cd"]); reflexivity.
Defined.

(** C8. When the scene splitter returns no scene for the prompt of a
    BatchImageGeneration classification, the planner returns the empty
    plan and raises nothing. *)
Theorem plan_batch_no_scene (d : intent_data) :
  taskType d = Some (u "batch_image_generation") ->
  _parse_scenes (default [] (prompt d)) = Ok [] ->
  plan_execution d = Ok [].
Proof.
  intros Ht Hp. rewrite (plan_execution_batch d Ht).
  unfold _plan_batch_generation. now rewrite Hp.
Qed.

Lemma plan_batch_no_scene_witness :
  plan_execution {| taskType := Some (u "batch_image_generation");
                    prompt := Some (u "four cats");
                    filePaths := Some [u "ref.png"];
                    parameters := None |} = Ok [].
Proof. apply plan_batch_no_scene; reflexivity. Defined.

(** ** The parameter extractor *)

(** The size the loop writes does not depend on the other keys of the
    dictionary it is given. *)
Lemma extract_size_lookup patterns m (params params' p1 : gmap string pyval) :
  extract_size patterns m params = Ok p1 ->
  exists p1', extract_size patterns m params' = Ok p1' /\
    (params !! "size"%string = params' !! "size"%string ->
     p1 !! "size"%string = p1' !! "size"%string).
Proof.
  induction patterns as [|p ps IH]; simpl.
  - intros [= <-]. eauto.
  - destruct (search p m) as [g|]; [|exact IH].
    destruct (int_of (group g 1)) as [w|e]; cbn [bind]; [|discriminate].
    destruct (int_of (group g 2)) as [h|e]; cbn [bind]; [|discriminate].
    intros [= <-]. eexists. split; [reflexivity|].
    intros _. now rewrite !lookup_insert_eq.
Qed.

Section ExtractorFacts.

Variable lower : str -> str.

Lemma extract_parameters_size m params :
  _extract_parameters lower m = Ok params ->
  exists p0,
    extract_size size_patterns m ∅ = Ok p0 /\
    params !! "size"%string = p0 !! "size"%string.
Proof.
  intros Hok.
  destruct (extract_parameters_ok lower m params Hok) as (d & p1 & _ & Hsz & ->).
  destruct (extract_size_lookup _ _ _ ∅ _ Hsz) as (p0 & Hp0 & Hl).
  exists p0. split; [exact Hp0|].
  rewrite extract_style_other by discriminate. apply Hl.
  now rewrite lookup_insert_ne by discriminate.
Qed.

(** C6. The size is taken from the first of the three patterns WxH, W:H,
    "W by H" (in this order) that has a match in the message, and is
    written "{width}x{height}"; with no match there is no size.  The
    extractor returns for every message of at most 4300 characters.  From
    "1920x1080 image" the size is "1920x1080", from "16:9 video" it is
    the literal "16x9". *)
Theorem size_first_match_wins (message : str) :
  (forall params, _extract_parameters lower message = Ok params ->
     ((Forall (fun p => search p message = None) size_patterns /\
       params !! "size"%string = None)
      \/
      (exists pre pat post g w h,
          size_patterns = pre ++ pat :: post /\
          Forall (fun p => search p message = None) pre /\
          search pat message = Some g /\
          group g 1 = Some w /\ group g 2 = Some h /\
          params !! "size"%string
            = Some (VStr (str_of_int (int_of_digits w) ++ u "x"
                            ++ str_of_int (int_of_digits h))))))
  /\ ((length message <= int_max_str_digits)%nat ->
      exists params, _extract_parameters lower message = Ok params)
  /\ (exists params,
        _extract_parameters lower (u "1920x1080 image") = Ok params /\
        params !! "size"%string = Some (VStr (u "1920x1080")))
  /\ (exists params,
        _extract_parameters lower (u "16:9 video") = Ok params /\
        params !! "size"%string = Some (VStr (u "16x9"))).
Proof.
  split; [|split; [apply extract_parameters_returns|split]].
  - intros params Hok.
    destruct (extract_parameters_size message params Hok) as (p0 & Hp0 & ->).
    apply extract_size_ok in Hp0
      as [[Hall ->]|(pre & pat & post & g & w & h & Hs & Hpre & Hg & Hw & Hh & ->)];
      [|auto..].
    + left. split; [exact Hall | apply lookup_empty].
    + right. exists pre, pat, post, g, w, h.
      rewrite lookup_insert_eq. repeat split; assumption.
  - destruct (extract_parameters_returns lower (u "1920x1080 image"))
      as (params & Hok); [apply Nat.leb_le; vm_compute; reflexivity|].
    exists params. split; [exact Hok|].
    destruct (extract_parameters_size _ params Hok) as (p0 & Hp0 & ->).
    vm_compute in Hp0. injection Hp0 as <-. vm_compute. reflexivity.
  - destruct (extract_parameters_returns lower (u "16:9 video"))
      as (params & Hok); [apply Nat.leb_le; vm_compute; reflexivity|].
    exists params. split; [exact Hok|].
    destruct (extract_parameters_size _ params Hok) as (p0 & Hp0 & ->).
    vm_compute in Hp0. injection Hp0 as <-. vm_compute. reflexivity.
Qed.


End ExtractorFacts.

Lemma size_first_match_wins_witness :
  exists params,
    _extract_parameters (fun s => s) (u "a 3 by 4 picture") = Ok params /\
    ((Forall (fun p => search p (u "a 3 by 4 picture") = None) size_patterns /\
      params !! "size"%string = None)
     \/
     (exists pre pat post g w h,
         size_patterns = pre ++ pat :: post /\
         Forall (fun p => search p (u "a 3 by 4 picture") = None) pre /\
         search pat (u "a 3 by 4 picture") = Some g /\
         group g 1 = Some w /\ group g 2 = Some h /\
         params !! "size"%string
           = Some (VStr (str_of_int (int_of_digits w) ++ u "x"
                           ++ str_of_int (int_of_digits h))))).
Proof.
  destruct (size_first_match_wins (fun s => s) (u "a 3 by 4 picture"))
    as (Hfirst & Hret & _).
  destruct Hret as [params Hok]; [apply Nat.leb_le; vm_compute; reflexivity|].
  exists params. split; [exact Hok | exact (Hfirst params Hok)].
Defined.



(** ** The prompt extractor *)

Lemma contains_nil s : contains s [] = true.
Proof. destruct s; reflexivity. Qed.

(** Replacing a string that does not occur changes nothing. *)
Lemma replace_absent s old new :
  contains s old = false -> replace s old new = s.
Proof.
  destruct old as [|a old]; [now rewrite contains_nil|].
  unfold replace. induction s as [|c s IH]; [reflexivity|].
  cbn [contains replace_from]. intros H.
  apply orb_false_iff in H as [H1 H2]. rewrite H1. f_equal. auto.
Qed.

Lemma startswith_app a x y : startswith (a ++ x) (a ++ y) = startswith x y.
Proof. induction a as [|c a IH]; simpl; [reflexivity|]. now rewrite N.eqb_refl. Qed.

Lemma startswith_prefix p s : startswith (p ++ s) p = true.
Proof.
  induction p as [|c p IH]; simpl; [now destruct s|]. now rewrite N.eqb_refl.
Qed.

(** Whether [s] starts with [p] only depends on the first [length p]
    characters of [s]. *)
Lemma startswith_app_l p : forall s t,
  (length p <= length s)%nat -> startswith (s ++ t) p = startswith s p.
Proof.
  induction p as [|a p IH]; intros [|b s] t H; simpl in *;
    try reflexivity; try lia.
  - now destruct t.
  - rewrite IH by lia. reflexivity.
Qed.

Lemma replace_from_skip old new s : forall k,
  (k <= length s)%nat ->
  replace_from old new k s = replace_from old new 0 (drop k s).
Proof.
  induction s as [|c s IH]; intros [|k] H; simpl in *; try reflexivity; try lia.
  apply IH. lia.
Qed.

(** [replace] at the first occurrence of [old]: the text before it is
    kept, the occurrence becomes [new], and the replacement goes on in
    the text after it.  With [replace_absent] this determines [replace]:
    every left-to-right, non-overlapping occurrence is replaced. *)
Lemma replace_first old new a b :
  contains (a ++ removelast old) old = false ->
  replace (a ++ old ++ b) old new = a ++ new ++ replace b old new.
Proof.
  destruct old as [|o old]; [now rewrite contains_nil|].
  unfold replace. induction a as [|c a IH]; intros H.
  - pose proof (startswith_prefix (o :: old) b) as Hp. cbn [app] in Hp.
    cbn [app replace_from]. rewrite Hp.
    replace (length (o :: old) - 1)%nat with (length old) by (simpl; lia).
    rewrite replace_from_skip by (rewrite length_app; lia).
    now rewrite drop_app_length.
  - cbn [app contains] in H. apply orb_false_iff in H as [H1 H2].
    cbn [app replace_from].
    assert (Hs : startswith (c :: a ++ (o :: old) ++ b) (o :: old) = false).
    { rewrite <- H1.
      rewrite (app_removelast_last 0 (l := o :: old)) at 1 by discriminate.
      rewrite <- app_assoc, app_comm_cons, app_assoc.
      apply startswith_app_l.
      cbn [length]. rewrite length_app, removelast_firstn_len, length_take.
      cbn [length]. lia. }
    cbn [app] in Hs. rewrite Hs. f_equal. apply IH. exact H2.
Qed.

Lemma remove_words_app ws1 ws2 p :
  remove_words (ws1 ++ ws2) p = remove_words ws2 (remove_words ws1 p).
Proof. apply fold_left_app. Qed.

(** C5, as the code has it.  The instruction words are removed in one
    pass over the word list, in list order, each from the string the
    earlier removals left: a word that does not occur in that string
    changes nothing, and a word that occurs is removed at its first
    occurrence and then, in the same way, in the text after it (every
    left-to-right, non-overlapping occurrence).  A removal can bring
    together a later word of the list, which is then removed ("ma生成ke"
    gives the empty prompt); the same word brought together by its own
    removal stays ("crecreateate" gives "create"). *)
Theorem remove_words_single_pass (message : str) :
  (forall pre w post,
      instruction_words = pre ++ w :: post ->
      remove_words instruction_words message
      = remove_words post (replace (remove_words pre message) w []))
  /\ (forall pre w post,
      instruction_words = pre ++ w :: post ->
      contains (remove_words pre message) w = false ->
      remove_words (pre ++ [w]) message = remove_words pre message)
  /\ (forall pre w post a b,
      instruction_words = pre ++ w :: post ->
      remove_words pre message = a ++ w ++ b ->
      contains (a ++ removelast w) w = false ->
      remove_words (pre ++ [w]) message = a ++ remove_words [w] b)
  /\ _extract_prompt (u "ma生成ke") = []
  /\ _extract_prompt (u "crecreateate") = u "create".
Proof.
  split; [|split; [|split; [|split; reflexivity]]].
  - intros pre w post ->. now rewrite remove_words_app.
  - intros pre w post _ H. rewrite remove_words_app. cbn.
    now apply replace_absent.
  - intros pre w post a b _ Heq H. rewrite remove_words_app.
    unfold remove_words at 1. cbn [fold_left]. rewrite Heq.
    now rewrite replace_first.
Qed.

Lemma remove_words_single_pass_witness :
  remove_words (take 7 instruction_words ++ [u "help"]) (u "畫一隻貓")
  = remove_words (take 7 instruction_words) (u "畫一隻貓")
  /\ remove_words (take 11 instruction_words ++ [u "draw"])
       (u "draw a cat, draw a dog")
     = [] ++ remove_words [u "draw"] (u " a cat, draw a dog").
Proof.
  split.
  - apply (proj1 (proj2 (remove_words_single_pass (u "畫一隻貓")))
             (take 7 instruction_words) (u "help") (drop 8 instruction_words));
      reflexivity.
  - apply (proj1 (proj2 (proj2 (remove_words_single_pass
                                  (u "draw a cat, draw a dog"))))
             (take 11 instruction_words) (u "draw") [] []
             (u " a cat, draw a dog"));
      reflexivity.
Defined.

(** Both occurrences of "draw" are removed. *)
Example remove_words_twice :
  remove_words instruction_words (u "draw a cat, draw a dog")
  = u " a cat,  a dog".
Proof. reflexivity. Qed.

(** C5 as it is stated fails: "make" does not occur in "ma生成ke", and
    when its turn comes the removal of "生成" has created it. *)
Lemma removal_creates_word :
  ~ (forall message pre w post,
        instruction_words = pre ++ w :: post ->
        contains message w = false ->
        contains (remove_words pre message) w = false).
Proof.
  intros H.
  specialize (H (u "ma生成ke") (take 10 instruction_words) (u "make")
                (drop 11 instruction_words) eq_refl eq_refl).
  vm_compute in H. discriminate H.
Qed.

(** * Further properties of the decision agent *)

(** ** [_determine_task_type] *)

Section ClassifierMore.

Variable lower : str -> str.

Local Notation "'batch_keywords'" :=
  [u "四張"; u "四個"; u "4張"; u "4個"; u "four"; u "4"; u "多張"; u "多個";
   u "batch"; u "生成四"; u "create four"] (only parsing).

Local Ltac split_ifs :=
  repeat match goal with
         | |- context [if ?b then _ else _] =>
             lazymatch b with
             | true => fail
             | false => fail
             | _ => destruct b eqn:?
             end
         end.

Lemma task_type_not_multimodal (message : str) (file_count : Z) :
  _determine_task_type lower message file_count <> MULTIMODAL.
Proof.
  unfold _determine_task_type. cbv zeta. split_ifs; discriminate.
Qed.

(** The classifier never answers Multimodal. *)
Theorem determine_task_type_never_multimodal (message : str) (file_count : Z) :
  _determine_task_type lower message file_count <> MULTIMODAL.
Proof. apply task_type_not_multimodal. Qed.

Lemma task_type_batch_conditions (message : str) (file_count : Z) :
  _determine_task_type lower message file_count = BATCH_IMAGE_GENERATION
  <-> file_count = 1%Z /\
      (any_in batch_keywords (lower message) = true \/
       any_in scene_keywords message = true).
Proof.
  unfold _determine_task_type. cbv zeta.
  destruct (file_count =? 1)%Z eqn:E1; cbn [andb].
  - apply Z.eqb_eq in E1.
    destruct (any_in batch_keywords (lower message)) eqn:Hb; cbn [orb].
    + tauto.
    + destruct (any_in scene_keywords message) eqn:Hs.
      * tauto.
      * split; [|intros (_ & [H|H]); discriminate H].
        subst file_count. cbn [Z.eqb Pos.eqb]. split_ifs; discriminate.
  - apply Z.eqb_neq in E1.
    split; [|tauto]. split_ifs; discriminate.
Qed.

(** The answer is BatchImageGeneration exactly when there is one file and
    the lower-cased message has a batch keyword or the message has a
    scene label. *)
Theorem determine_task_type_batch_iff (message : str) (file_count : Z) :
  _determine_task_type lower message file_count = BATCH_IMAGE_GENERATION
  <-> file_count = 1%Z /\
      (any_in batch_keywords (lower message) = true \/
       any_in scene_keywords message = true).
Proof. apply task_type_batch_conditions. Qed.

(** With one file and neither batch keyword nor scene label, only the
    video keywords decide: the transform and image keywords never change
    the answer, and the inner fallback to ImageToVideo is never taken. *)
Theorem determine_task_type_one_file (message : str) :
  any_in batch_keywords (lower message) = false ->
  any_in scene_keywords message = false ->
  _determine_task_type lower message 1
  = if any_in keywords_video_gen message then IMAGE_TO_VIDEO
    else IMAGE_TO_IMAGE.
Proof.
  intros Hb Hs. unfold _determine_task_type. cbv zeta.
  rewrite Hb, Hs. cbn [Z.eqb Pos.eqb andb orb].
  destruct (any_in keywords_video_gen message); [reflexivity|].
  destruct (any_in keywords_image_transform message || _); reflexivity.
Qed.

(** The answer is FirstToLastFrame exactly when there are two files and
    the message has an interpolation keyword or one of the characters
    首, 尾. *)
Theorem determine_task_type_interpolation_iff (message : str) (file_count : Z) :
  _determine_task_type lower message file_count = FIRST_TO_LAST_FRAME
  <-> file_count = 2%Z /\
      (any_in keywords_interpolation message || contains message (u "首")
       || contains message (u "尾")) = true.
Proof.
  unfold _determine_task_type. cbv zeta.
  destruct (file_count =? 2)%Z eqn:E2.
  - apply Z.eqb_eq in E2. subst file_count. cbn [Z.eqb Pos.eqb andb].
    destruct (any_in keywords_interpolation message || _ || _);
      split; try tauto; try (intros (_ & H); discriminate H); discriminate.
  - apply Z.eqb_neq in E2.
    split; [|tauto]. split_ifs; discriminate.
Qed.

(** With more than two files, or a negative count, the answer is
    ImageToImage whatever the message says. *)
Theorem determine_task_type_many_files (message : str) (file_count : Z) :
  (file_count < 0 \/ 2 < file_count)%Z ->
  _determine_task_type lower message file_count = IMAGE_TO_IMAGE.
Proof.
  intros H. unfold _determine_task_type. cbv zeta.
  assert (E0 : (file_count =? 0)%Z = false) by (apply Z.eqb_neq; lia).
  assert (E1 : (file_count =? 1)%Z = false) by (apply Z.eqb_neq; lia).
  assert (E2 : (file_count =? 2)%Z = false) by (apply Z.eqb_neq; lia).
  rewrite E0, E1, E2. reflexivity.
Qed.

End ClassifierMore.

Lemma determine_task_type_one_file_witness :
  _determine_task_type (fun s => s) (u "把這張圖轉成動畫") 1
  = if any_in keywords_video_gen (u "把這張圖轉成動畫") then IMAGE_TO_VIDEO
    else IMAGE_TO_IMAGE.
Proof.
  apply (determine_task_type_one_file (fun s => s) (u "把這張圖轉成動畫"));
    vm_compute; reflexivity.
Defined.

Lemma determine_task_type_many_files_witness :
  _determine_task_type (fun s => s) (u "首尾 video 四張") 3 = IMAGE_TO_IMAGE.
Proof. apply determine_task_type_many_files. right. reflexivity. Defined.

(** ** [_calculate_confidence] and [analyze_intent] *)

Lemma value_inj t1 t2 : value t1 = value t2 -> t1 = t2.
Proof. destruct t1, t2; intros H; try reflexivity; vm_compute in H; discriminate H. Qed.

Section ConfidenceMore.

Variable lower : str -> str.

Local Ltac split_conds :=
  repeat match goal with
         | |- context [if ?b then _ else _] =>
             lazymatch b with
             | PrimFloat.ltb _ _ => fail
             | _ => destruct b
             end
         end.

(** The confidence is never below the base 0.5, and for ImageToImage,
    TextToVideo and Multimodal it is exactly 0.5: these types have no
    bonus. *)
Theorem confidence_base (message : str) (file_count : Z) (task_type : TaskType) :
  PrimFloat.leb 0.5 (_calculate_confidence lower message file_count task_type)
    = true
  /\ (In task_type [IMAGE_TO_IMAGE; TEXT_TO_VIDEO; MULTIMODAL] ->
      _calculate_confidence lower message file_count task_type = 0.5%float).
Proof.
  split.
  - unfold _calculate_confidence. destruct task_type; split_conds;
      vm_compute; reflexivity.
  - intros [<-|[<-|[<-|[]]]]; reflexivity.
Qed.


(** When [analyze_intent] answers batch_image_generation there is exactly
    one file and the confidence is at least 0.7. *)
Theorem analyze_intent_batch_confidence (message : str) (file_count : Z)
    (r : intent) :
  analyze_intent lower message file_count = Ok r ->
  i_taskType r = value BATCH_IMAGE_GENERATION ->
  i_fileCount r = 1%Z /\ PrimFloat.leb 0.7 (i_confidence r) = true.
Proof.
  unfold analyze_intent.
  destruct (_extract_parameters lower message) as [params|e]; cbn [bind];
    [|discriminate].
  intros [= <-]. cbn [i_taskType i_fileCount i_confidence].
  intros Ht. apply value_inj in Ht. rewrite Ht.
  apply task_type_batch_conditions in Ht as [-> _].
  split; [reflexivity|].
  unfold _calculate_confidence. cbn [Z.eqb Pos.eqb]. split_conds;
    vm_compute; reflexivity.
Qed.

End ConfidenceMore.

Lemma confidence_base_witness :
  _calculate_confidence (fun s => s) (u "video") 0 TEXT_TO_VIDEO = 0.5%float.
Proof.
  apply (proj2 (confidence_base (fun s => s) (u "video") 0 TEXT_TO_VIDEO)).
  simpl. tauto.
Defined.


Lemma analyze_intent_batch_confidence_witness :
  exists r, analyze_intent (fun s => s) (u "生成四隻貓") 1 = Ok r /\
    i_fileCount r = 1%Z /\ PrimFloat.leb 0.7 (i_confidence r) = true.
Proof.
  eexists. split; [vm_compute; reflexivity|].
  eapply (analyze_intent_batch_confidence (fun s => s) (u "生成四隻貓") 1);
    vm_compute; reflexivity.
Defined.

(** ** [plan_execution] *)

(** For any task type but batch_image_generation the plan is one step,
    numbered 1, whose action is the task type.  Its parameters have the
    keys of the intent's parameters and the keys prompt and filePaths,
    and no other; the intent's parameters win over the prompt and the
    file paths when they have these keys. *)
Theorem plan_execution_single (d : intent_data) :
  taskType d <> Some (u "batch_image_generation") ->
  exists st,
    plan_execution d = Ok [st] /\
    s_step st = 1%Z /\
    s_action st = opt_str (taskType d) /\
    s_description st = _get_action_description (taskType d) /\
    dom (s_parameters st)
    = dom (default ∅ (parameters d))
        ∪ ({[ "prompt"; "filePaths" ]} : gset string)%string /\
    (forall k v, default ∅ (parameters d) !! k = Some v ->
                 s_parameters st !! k = Some v) /\
    (default ∅ (parameters d) !! "prompt"%string = None ->
     s_parameters st !! "prompt"%string = Some (opt_str (prompt d))) /\
    (default ∅ (parameters d) !! "filePaths"%string = None ->
     s_parameters st !! "filePaths"%string
       = Some (VPaths (default [] (filePaths d)))).
Proof.
  intros Ht. unfold plan_execution.
  rewrite bool_decide_eq_false_2 by exact Ht.
  eexists. split; [reflexivity|].
  cbn [s_step s_action s_description s_parameters].
  repeat split.
  - rewrite dom_union_L, !dom_insert_L, dom_empty_L. set_solver.
  - intros k v Hk. apply lookup_union_Some_l. exact Hk.
  - intros Hn. rewrite lookup_union_r by exact Hn. apply lookup_insert_eq.
  - intros Hn. rewrite lookup_union_r by exact Hn.
    rewrite lookup_insert_ne by discriminate. apply lookup_insert_eq.
Qed.

Lemma plan_execution_single_witness :
  exists st,
    plan_execution {| taskType := Some (u "text_to_video");
                      prompt := Some (u "a cat");
                      filePaths := None;
                      parameters := Some {[ "duration"%string := VInt 7 ]} |}
      = Ok [st] /\
    dom (s_parameters st)
    = ({[ "duration"; "prompt"; "filePaths" ]} : gset string)%string /\
    s_parameters st !! "duration"%string = Some (VInt 7) /\
    s_parameters st !! "prompt"%string = Some (VStr (u "a cat")) /\
    s_parameters st !! "filePaths"%string = Some (VPaths []).
Proof.
  destruct (plan_execution_single
              {| taskType := Some (u "text_to_video");
                 prompt := Some (u "a cat");
                 filePaths := None;
                 parameters := Some {[ "duration"%string := VInt 7 ]} |})
    as (st & Hp & _ & _ & _ & Hdom & Hk & Hprompt & Hfiles).
  - vm_compute. discriminate.
  - exists st. split; [exact Hp|]. split; [|split; [|split]].
    + rewrite Hdom. apply (bool_decide_unpack _). vm_compute. exact I.
    + apply Hk. reflexivity.
    + apply Hprompt. reflexivity.
    + apply Hfiles. reflexivity.
Defined.

(** Every step of a batch plan has exactly the keys prompt, filePaths,
    is_batch, batch_index and total_batches: the intent's own parameters
    (duration, size, style) are not passed on, so the caller's test
    ['size' in step['parameters']] never holds for a batch plan. *)
Theorem plan_batch_step_keys (d : intent_data) (plan : list step) :
  taskType d = Some (u "batch_image_generation") ->
  plan_execution d = Ok plan ->
  forall st, In st plan ->
    dom (s_parameters st)
    = ({[ "prompt"; "filePaths"; "is_batch"; "batch_index";
          "total_batches" ]} : gset string)%string.
Proof.
  intros Ht. rewrite (plan_execution_batch d Ht). unfold _plan_batch_generation.
  destruct (_parse_scenes (default [] (prompt d))) as [scenes|e]; cbn [bind];
    [|discriminate].
  intros [= <-] st Hin.
  apply list_elem_of_In, list_elem_of_lookup in Hin as [i Hi].
  rewrite list_lookup_imap in Hi.
  destruct (scenes !! i) as [scene|]; [|discriminate].
  injection Hi as <-. unfold batch_step. cbn [s_parameters].
  rewrite !dom_insert_L, dom_empty_L. set_solver.
Qed.

Lemma plan_batch_step_keys_witness :
  dom (s_parameters (batch_step [u "ref.png"] 1 0 (u "ab")))
  = ({[ "prompt"; "filePaths"; "is_batch"; "batch_index";
        "total_batches" ]} : gset string)%string.
Proof.
  apply (plan_batch_step_keys
           {| taskType := Some (u "batch_image_generation");
              prompt := Some (u "場景1：ab");
              filePaths := Some [u "ref.png"];
              parameters := Some {[ "size"%string := VStr (u "3x4") ]} |}
           [batch_step [u "ref.png"] 1 0 (u "ab")]);
    [reflexivity | reflexivity | left; reflexivity].
Defined.

(** ** [_parse_scenes] *)

Lemma lstrip_head s :
  lstrip s = [] \/ exists c t, lstrip s = c :: t /\ isspace c = false.
Proof.
  induction s as [|c s IH]; simpl; [now left|].
  destruct (isspace c) eqn:E; [exact IH|]. right. eauto.
Qed.

Lemma lstrip_nonspace c t : isspace c = false -> lstrip (c :: t) = c :: t.
Proof. intros E. simpl. now rewrite E. Qed.

Lemma lstrip_idem s : lstrip (lstrip s) = lstrip s.
Proof.
  destruct (lstrip_head s) as [->|(c & t & -> & E)]; [reflexivity|].
  now apply lstrip_nonspace.
Qed.

Lemma lstrip_snoc l c : isspace c = false -> lstrip (l ++ [c]) = lstrip l ++ [c].
Proof.
  intros E. induction l as [|a l IH]; simpl.
  - now rewrite E.
  - destruct (isspace a); [exact IH | reflexivity].
Qed.

Lemma rstrip_idem s : rstrip (rstrip s) = rstrip s.
Proof. unfold rstrip. now rewrite rev_involutive, lstrip_idem. Qed.

Lemma lstrip_rstrip_lstrip s : lstrip (rstrip (lstrip s)) = rstrip (lstrip s).
Proof.
  destruct (lstrip_head s) as [->|(c & t & -> & E)]; [reflexivity|].
  unfold rstrip. cbn [rev]. rewrite lstrip_snoc by exact E.
  rewrite rev_app_distr. cbn [rev app]. now apply lstrip_nonspace.
Qed.

(** [strip] has nothing left to remove on its own result. *)
Lemma strip_idem s : strip (strip s) = strip s.
Proof. unfold strip. now rewrite lstrip_rstrip_lstrip, rstrip_idem. Qed.

Lemma collect_scenes_clean matches acc scenes :
  Forall (fun s => s <> [] /\ strip s = s) acc ->
  collect_scenes matches acc = Ok scenes ->
  Forall (fun s => s <> [] /\ strip s = s) scenes.
Proof.
  revert acc. induction matches as [|x rest IH]; intros acc Hacc; simpl.
  - now intros [= <-].
  - destruct (if (1 <? item_len x)%nat then item_index x 1 else item_index x 0)
      as [t|e]; cbn [bind]; [|discriminate].
    apply IH. destruct (strip t) as [|c t'] eqn:E; cbn [nonempty]; [exact Hacc|].
    apply Forall_app. split; [exact Hacc|].
    constructor; [|constructor]. split; [discriminate|].
    rewrite <- E. apply strip_idem.
Qed.

Lemma scan_patterns_clean patterns prompt scenes :
  scan_patterns patterns prompt [] = Ok scenes ->
  Forall (fun s => s <> [] /\ strip s = s) scenes.
Proof.
  induction patterns as [|p ps IH]; cbn [scan_patterns].
  - intros [= <-]. constructor.
  - destruct (findall p prompt) as [|x xs]; [exact IH|].
    apply collect_scenes_clean. constructor.
Qed.

(** Whenever the scene splitter returns, it returns at most four scenes,
    none of them empty and none with white space at either end. *)
Theorem parse_scenes_clean (prompt : str) (scenes : list str) :
  _parse_scenes prompt = Ok scenes ->
  (length scenes <= 4)%nat /\
  Forall (fun s => s <> [] /\ strip s = s) scenes.
Proof.
  intros H. split; [eapply parse_scenes_length; exact H|].
  revert H. unfold _parse_scenes.
  destruct (scan_patterns scene_patterns prompt []) as [l|e] eqn:Hscan;
    cbn [bind]; [|discriminate].
  intros [= <-]. apply Forall_take.
  apply scan_patterns_clean in Hscan.
  destruct l as [|s l]; [|exact Hscan].
  set (paragraphs := List.filter nonempty (map strip (split_char 10 prompt))).
  assert (Hp : Forall (fun s => s <> [] /\ strip s = s) paragraphs).
  { apply List.Forall_forall. intros s Hs.
    apply filter_In in Hs as [Hs Hne]. apply in_map_iff in Hs as (y & <- & _).
    split; [|apply strip_idem]. now destruct (strip y). }
  clearbody paragraphs.
  destruct paragraphs as [|p0 [|p1 ps]]; cbn [length Nat.leb tail];
    [constructor | constructor | exact (List.Forall_inv_tail Hp)].
Qed.

Lemma parse_scenes_clean_witness :
  (length [u "a"; u "b"] <= 4)%nat /\
  Forall (fun s => s <> [] /\ strip s = s) [u "a"; u "b"].
Proof.
  apply (parse_scenes_clean (u "ref" ++ [10] ++ u " a " ++ [10; 10] ++ u "b")).
  reflexivity.
Defined.

(** No match of a pattern that starts with a literal in a text without
    that literal. *)
Lemma findall_from_absent l r skip s :
  contains s l = false -> findall_from (Seq (Lit l) r) skip s = [].
Proof.
  revert skip. induction s as [|c s IH]; intros skip H.
  - destruct skip; [|reflexivity].
    cbn [contains] in H. apply orb_false_iff in H as [H _].
    cbn [findall_from exec run]. now rewrite H.
  - cbn [contains] in H. apply orb_false_iff in H as [H1 H2].
    destruct skip as [|k]; cbn [findall_from exec run].
    + rewrite H1. now apply IH.
    + now apply IH.
Qed.

Lemma split_char_from_absent sep cur s :
  ~ In sep s -> split_char_from sep cur s = [rev cur ++ s].
Proof.
  revert cur. induction s as [|c s IH]; intros cur H; simpl.
  - now rewrite app_nil_r.
  - destruct (c =? sep) eqn:E.
    + apply N.eqb_eq in E. exfalso. apply H. now left.
    + rewrite IH by (intros Hin; apply H; now right).
      simpl. now rewrite <- app_assoc.
Qed.

Lemma parse_scenes_by_lines (prompt : str) :
  contains prompt (u "場景") = false ->
  contains prompt (u "第") = false ->
  _parse_scenes prompt
  = Ok (take 4 (tail (List.filter nonempty
                        (map strip (split_char 0x0A prompt))))).
Proof.
  intros H1 H2. unfold _parse_scenes.
  assert (Hscan : scan_patterns scene_patterns prompt [] = Ok []).
  { unfold scene_patterns, scan_patterns, findall. cbn [cat].
    rewrite !findall_from_absent by assumption. reflexivity. }
  rewrite Hscan. cbn [bind]. f_equal. f_equal.
  destruct (List.filter nonempty (map strip (split_char 10 prompt)))
    as [|p0 [|p1 ps]]; reflexivity.
Qed.

(** A prompt without the characters of the scene labels (neither 場景
    nor 第) is split by lines: the first non-blank line is taken as the
    reference and the next ones, at most four, are the scenes. *)
Theorem parse_scenes_unlabelled (prompt : str) :
  contains prompt (u "場景") = false ->
  contains prompt (u "第") = false ->
  _parse_scenes prompt
  = Ok (take 4 (tail (List.filter nonempty
                        (map strip (split_char 0x0A prompt))))).
Proof. apply parse_scenes_by_lines. Qed.

Lemma parse_scenes_unlabelled_witness :
  _parse_scenes (u "ref" ++ [10] ++ u " a " ++ [10; 10] ++ u "b")
  = Ok [u "a"; u "b"].
Proof.
  apply (parse_scenes_unlabelled (u "ref" ++ [10] ++ u " a " ++ [10; 10] ++ u "b"));
    reflexivity.
Defined.

(** A batch request whose prompt is one line without scene labels has an
    empty plan: a batch keyword alone ("four cats") gives nothing to
    execute. *)
Theorem plan_batch_one_line (d : intent_data) :
  taskType d = Some (u "batch_image_generation") ->
  contains (default [] (prompt d)) (u "場景") = false ->
  contains (default [] (prompt d)) (u "第") = false ->
  ~ In 0x0A (default [] (prompt d)) ->
  plan_execution d = Ok [].
Proof.
  intros Ht H1 H2 Hnl. rewrite (plan_execution_batch d Ht).
  unfold _plan_batch_generation.
  rewrite parse_scenes_by_lines by assumption.
  unfold split_char. rewrite split_char_from_absent by exact Hnl.
  cbn [rev app map List.filter]. now destruct (nonempty _).
Qed.

Lemma plan_batch_one_line_witness :
  plan_execution {| taskType := Some (u "batch_image_generation");
                    prompt := Some (u "four cats");
                    filePaths := Some [u "ref.png"];
                    parameters := None |} = Ok [].
Proof.
  apply plan_batch_one_line; try reflexivity.
  vm_compute. intuition discriminate.
Defined.

(** ** [_extract_prompt] *)

Lemma remove_words_absent ws m :
  Forall (fun w => contains m w = false) ws -> remove_words ws m = m.
Proof.
  induction 1 as [|w ws Hw _ IH]; [reflexivity|].
  unfold remove_words in *. cbn [fold_left].
  now rewrite replace_absent by exact Hw.
Qed.

(** A message in which no instruction word occurs only has its white
    space normalised: runs of white space become one space and the ends
    are trimmed. *)
Theorem extract_prompt_no_instruction (message : str) :
  Forall (fun w => contains message w = false) instruction_words ->
  _extract_prompt message = strip (join (u " ") (split_ws message)).
Proof.
  intros H. unfold _extract_prompt. now rewrite remove_words_absent.
Qed.

Lemma extract_prompt_no_instruction_witness :
  _extract_prompt (u "  a   cat ")
  = strip (join (u " ") (split_ws (u "  a   cat "))).
Proof.
  apply extract_prompt_no_instruction.
  apply (bool_decide_unpack _). vm_compute. exact I.
Defined.

(** ** [_extract_parameters] on a message without digits *)

Lemma search_digits_absent i r m :
  Forall (fun c => isdecimal c = false) m ->
  search (Seq (Group i (Plus isdecimal)) r) m = None.
Proof.
  induction 1 as [|c m Hc _ IH]; [reflexivity|].
  cbn [search exec run]. now rewrite Hc.
Qed.

Lemma search_duration_absent m :
  Forall (fun c => isdecimal c = false) m -> search duration_re m = None.
Proof.
  unfold duration_re. cbn [cat].
  induction 1 as [|c m Hc _ IH]; [reflexivity|].
  cbn [search exec run]. now rewrite Hc.
Qed.

Section ExtractorMore.

Variable lower : str -> str.

(** Without a decimal digit in the message there is neither a duration
    nor a size to find: the duration is the default 5 and the key size
    is absent. *)
Theorem extract_parameters_no_digit (message : str) :
  Forall (fun c => isdecimal c = false) message ->
  exists params,
    _extract_parameters lower message = Ok params /\
    params !! "duration"%string = Some (VInt 5) /\
    params !! "size"%string = None.
Proof.
  intros H. unfold _extract_parameters.
  rewrite search_duration_absent by exact H. cbn [bind].
  unfold size_patterns. cbn [cat extract_size].
  rewrite !search_digits_absent by exact H. cbn [bind].
  eexists. split; [reflexivity|].
  rewrite !extract_style_other by discriminate.
  split; [apply lookup_insert_eq|].
  rewrite lookup_insert_ne by discriminate. apply lookup_empty.
Qed.

(** ** [_generate_reasoning] *)

Lemma join_head sep r rs : exists rest, join sep (r :: rs) = r ++ rest.
Proof.
  destruct rs as [|r' rs]; cbn [join]; [exists []; now rewrite app_nil_r | eauto].
Qed.

Lemma reasoning_head (a v c first sep : str) rs :
  startswith (a ++ v ++ c ++ join sep (first :: rs)) (a ++ v ++ c ++ first)
  = true.
Proof.
  destruct (join_head sep first rs) as [rest ->].
  rewrite !startswith_app. apply startswith_prefix.
Qed.

(** The reasoning always begins with the task type and the file-count
    reason: "未上傳文件" without files, "上傳了 N 個文件" with N files. *)
Theorem generate_reasoning_head (task_type : TaskType) (message : str)
    (file_count : Z) :
  startswith (_generate_reasoning lower task_type message file_count)
    (u "判斷為 " ++ value task_type ++ u "，因為: "
       ++ (if (file_count =? 0)%Z then u "未上傳文件"
           else u "上傳了 " ++ str_of_int file_count ++ u " 個文件"))
  = true.
Proof.
  unfold _generate_reasoning. cbv zeta.
  destruct (file_count =? 0)%Z; destruct task_type;
    repeat match goal with
           | |- context [if ?b then _ else _] => destruct b
           end;
    cbn [app]; apply reasoning_head.
Qed.

End ExtractorMore.

Lemma extract_parameters_no_digit_witness :
  exists params,
    _extract_parameters (fun s => s) (u "a cat") = Ok params /\
    params !! "duration"%string = Some (VInt 5) /\
    params !! "size"%string = None.
Proof.
  apply (extract_parameters_no_digit (fun s => s) (u "a cat")).
  apply (bool_decide_unpack _). vm_compute. exact I.
Defined.

(** ** [validate_input] and the classifier *)

Lemma validate_batch_conditions m fc :
  valid (validate_input (u "batch_image_generation") m fc) = true <->
  fc <> 0%Z /\ (10 <= length (strip m))%nat /\
  any_in scene_keywords m = true.
Proof.
  unfold validate_input.
  assert (E : str_eqb (u "batch_image_generation") (u "batch_image_generation")
              = true) by (vm_compute; reflexivity).
  rewrite E. cbv zeta beta. cbn [valid].
  assert (Hs : (negb (nonempty m) || (length (strip m) <? 10)%nat)
               = (length (strip m) <? 10)%nat) by (destruct m; reflexivity).
  rewrite Hs.
  destruct (fc =? 0)%Z eqn:E0;
    [apply Z.eqb_eq in E0 | apply Z.eqb_neq in E0];
    (destruct (length (strip m) <? 10)%nat eqn:E1;
     [apply Nat.ltb_lt in E1 | apply Nat.ltb_ge in E1]);
    destruct (any_in scene_keywords m) eqn:E2;
    cbn [append_if negb app length Nat.eqb];
    split; try discriminate; try (intros (? & ? & ?)); try congruence;
    try lia; try (intros _; repeat split; auto; lia).
Qed.

(** A batch request is valid exactly when it has a file count other than
    zero, a message of at least 10 characters once trimmed, and a scene
    label. *)
Theorem validate_batch_valid_iff (message : str) (file_count : Z) :
  valid (validate_input (u "batch_image_generation") message file_count) = true
  <-> file_count <> 0%Z /\ (10 <= length (strip message))%nat /\
      any_in scene_keywords message = true.
Proof. apply validate_batch_conditions. Qed.


(** A batch request with one file that the validator accepts is one the
    classifier answers BatchImageGeneration for: the scene label the
    validator asks for is one of the classifier's batch triggers. *)
Theorem validated_batch_is_classified (lower : str -> str) (message : str) :
  valid (validate_input (u "batch_image_generation") message 1) = true ->
  _determine_task_type lower message 1 = BATCH_IMAGE_GENERATION.
Proof.
  intros H. apply validate_batch_conditions in H as (_ & _ & Hs).
  unfold _determine_task_type. cbv zeta. rewrite Hs.
  cbn [Z.eqb Pos.eqb andb]. now rewrite orb_true_r.
Qed.

Lemma validated_batch_is_classified_witness :
  _determine_task_type (fun s => s) (u "場景一：貓在跳舞，場景二：狗在跑步") 1
  = BATCH_IMAGE_GENERATION.
Proof.
  apply validated_batch_is_classified. vm_compute. reflexivity.
Defined.

